(** * Resumable batch enrichment of the Russian city list

    A shallow embedding of the two scripts of the repository:

    - [fetch_hourly_weather.py] ([Module Weather]): reads the city table,
      drops the cities that already occur in the output table, asks the
      weather archive for every remaining city and appends what it got to
      the output table;
    - [russian_cities_with_coords.py] ([Module Geocode]): geocodes every
      city of the cleaned city list through a dictionary cache kept in a
      JSON file, and writes the table with coordinates.

    Modelling decisions, shared by both modules.

    - A CSV file is the [pandas] frame read from it: a list of typed rows.
      [to_csv] followed by [read_csv] is the identity on such a list; a
      file that does not exist is [None].  Files without the columns the
      scripts index ([KeyError] before any request) are outside the types.
    - Numeric cells (coordinates, weather variables) are never computed
      with; their type is a parameter [number] of the development.  A cell
      is the number, not its spelling, and missing values are not modelled.
      The archive answers in [float32]; a table read back is [float64], and
      concatenating new frames onto it widens their values, which [to_csv]
      then spells with more digits.  The numbers are the same, the texts
      are not: a table written from no file and one written onto a file
      with rows agree as tables where they can differ as texts.  Where two
      files are compared that were produced along different ways, the
      statements keep to runs that start from a table with rows.
    - The external services are oracles.  Everything the scripts do to the
      outside world (requests, sleeps, file reads and writes, console
      messages) is recorded, in order, in a trace of events.
    - Exceptions are values: a step that may raise returns a sum.
    - The interpreter's stack is finite.  The recursive retry of
      [get_coordinates] takes the number of nested activations that the
      stack still holds as a parameter; the activation after the last one
      raises [RecursionError]. *)

From Stdlib Require Import ZArith List String.
From stdpp Require Import base option list strings gmap.
Import ListNotations.

Local Open Scope string_scope.
Local Open Scope list_scope.

(** Raised Python exceptions, by class, with their message. *)
Inductive exn : Type :=
  | OpenMeteoRequestsError (reason : string)
  | ValueError (reason : string)
  | OverflowError (reason : string)
  | RecursionError (reason : string)
  | GeocoderServiceError (reason : string)
  | OtherException (reason : string).

(* ===================================================================== *)
(** ** fetch_hourly_weather.py *)
(* ===================================================================== *)

Module Weather.

Section Pipeline.

Context {number : Type}.

(** A row of the input table ([--input]); only the three columns that
    [main] reads. *)
Record source_row : Type := {
  city : string;
  latitude : number;
  longitude : number
}.

(** The request parameters that vary (lines 82-92); the variable list and
    the temporal resolution are constants of the script. *)
Record params : Type := {
  p_latitude : number;
  p_longitude : number;
  p_start_date : string;
  p_end_date : string
}.

(** The nine requested variables at one time step, in the order of the
    ["hourly"] list. *)
Record hourly_values : Type := {
  temperature_2m : number;
  relative_humidity_2m : number;
  rain : number;
  snowfall : number;
  snow_depth : number;
  is_day : number;
  precipitation : number;
  wind_direction_100m : number;
  wind_speed_100m : number
}.

(** One time step of a response: the timestamp of [pd.date_range] (unix
    seconds) and the values of the nine variables at that step. *)
Record observation : Type := {
  time : Z;
  values : hourly_values
}.

(** A row of the output table: columns [date], [city] and the nine
    variables (lines 99-116). *)
Record weather_row : Type := {
  row_date : Z;
  row_city : string;
  row_values : hourly_values
}.

Definition dataframe : Type := list weather_row.

(** Lines 95-118 up to the frame: the archive either answers with an
    aligned series, or something in the [try] block raises. *)
Inductive api_result : Type :=
  | Raised (e : exn)
  | Hourly (series : list observation).

(** Console messages, one constructor per [print] of [main]. *)
Inductive message : Type :=
  | AlreadyProcessed (cities : gset string)        (* line 69 *)
  | DataReceived (c : string) (delay : Z)          (* line 120 *)
  | ErrorForCity (c : string) (e : exn)            (* line 124 *)
  | SavingBeforeExit                               (* line 126 *)
  | SavedTo                                        (* line 134 *)
  | NothingToSave                                  (* line 136 *)
  | AllSaved                                       (* line 148 *)
  | NoNewData.                                     (* line 150 *)

Inductive event : Type :=
  | Print (m : message)
  | Request (p : params)
  | Sleep (secs : Z)
  | ReadOutput
  | WriteOutput (final_df : dataframe).

(** What [main] touches while it runs: the output file, the accumulator
    [all_results] and the trace. *)
Record state : Type := {
  output_file : option dataframe;
  all_results : list dataframe;
  trace : list event
}.

(** How the [for] loop was left: by exhausting [data] (the [else] branch
    runs) or by the [break] of the [except] branch. *)
Inductive loop_exit : Type :=
  | Exhausted
  | Broke (c : string) (e : exn).

Definition emit (e : event) (st : state) : state :=
  {| output_file := output_file st;
     all_results := all_results st;
     trace := trace st ++ [e] |}.

(** [all_results.append(df)] *)
Definition append_result (df : dataframe) (st : state) : state :=
  {| output_file := output_file st;
     all_results := all_results st ++ [df];
     trace := trace st |}.

(** [final_df.to_csv(output_path, index=False)] *)
Definition to_csv (final_df : dataframe) (st : state) : state :=
  {| output_file := Some final_df;
     all_results := all_results st;
     trace := trace st ++ [WriteOutput final_df] |}.

(** The first number of seconds that does not fit the interpreter's clock:
    a signed 64-bit count of nanoseconds. *)
Definition sleep_limit : Z := 9223372037.

(** What [time.sleep(secs)] raises for an integer argument, if anything.
    The conversion to nanoseconds comes first, the test of the sign
    after it.  The messages are those of CPython 3.10 to 3.12. *)
Definition sleep_error (secs : Z) : option exn :=
  if (sleep_limit <=? Z.abs secs)%Z
  then Some (OverflowError "timestamp too large to convert to C _PyTime_t")
  else if (secs <? 0)%Z
       then Some (ValueError "sleep length must be non-negative")
       else None.

(** [time.sleep(secs)] *)
Definition time_sleep (secs : Z) (st : state) : exn + state :=
  match sleep_error secs with
  | Some e => inl e
  | None => inr (emit (Sleep secs) st)
  end.

(** [pd.DataFrame(hourly_data)]: the scalar [city] is broadcast to every
    time step. *)
Definition hourly_frame (c : string) (series : list observation) : dataframe :=
  (fun o => {| row_date := time o; row_city := c; row_values := values o |})
    <$> series.

(** Lines 65-69: the cities of the existing output table. *)
Definition processed_cities (output : option dataframe) : gset string :=
  match output with
  | Some existing_df => list_to_set (row_city <$> existing_df)
  | None => ∅
  end.

(** Line 72: [data[~data["city"].isin(processed_cities)]]. *)
Definition unprocessed (processed : gset string) (data : list source_row)
  : list source_row :=
  filter (fun row => city row ∉ processed) data.

(** [pd.concat(frames, ignore_index=True)]: the rows of the frames, in
    order. *)
Definition pd_concat (frames : list dataframe) : dataframe := concat frames.

Variable weather_api : params -> api_result.
Variables start_date end_date : string.
Variable delay : Z.

Definition request_params (row : source_row) : params :=
  {| p_latitude := latitude row;
     p_longitude := longitude row;
     p_start_date := start_date;
     p_end_date := end_date |}.

(** The [try] block, lines 95-121.  [inl] is an exception escaping it,
    with the state it leaves behind. *)
Definition try_block (row : source_row) (st : state) : exn * state + state :=
  let st := emit (Request (request_params row)) st in
  match weather_api (request_params row) with
  | Raised e => inl (e, st)
  | Hourly series =>
      let df := hourly_frame (city row) series in
      let st := append_result df st in
      let st := emit (Print (DataReceived (city row) delay)) st in
      match time_sleep delay st with
      | inl e => inl (e, st)
      | inr st => inr st
      end
  end.

(** The [except] block, lines 124-136 (the [break] is in [for_loop]). *)
Definition except_block (row : source_row) (e : exn) (st : state) : state :=
  let st := emit (Print (ErrorForCity (city row) e)) st in
  match all_results st with
  | _ :: _ =>
      let st := emit (Print SavingBeforeExit) st in
      let new_df := pd_concat (all_results st) in
      let '(final_df, st) :=
        match output_file st with
        | Some existing_df => (existing_df ++ new_df, emit ReadOutput st)
        | None => (new_df, st)
        end in
      let st := to_csv final_df st in
      emit (Print SavedTo) st
  | [] => emit (Print NothingToSave) st
  end.

(** The [else] block of the loop, lines 140-150. *)
Definition else_block (st : state) : state :=
  match all_results st with
  | _ :: _ =>
      let new_df := pd_concat (all_results st) in
      let '(final_df, st) :=
        match output_file st with
        | Some existing_df => (existing_df ++ new_df, emit ReadOutput st)
        | None => (new_df, st)
        end in
      let st := to_csv final_df st in
      emit (Print AllSaved) st
  | [] => emit (Print NoNewData) st
  end.

(** [for index, row in data.iterrows(): ... else: ...], lines 81-150. *)
Fixpoint for_loop (data : list source_row) (st : state) : state * loop_exit :=
  match data with
  | [] => (else_block st, Exhausted)
  | row :: rest =>
      match try_block row st with
      | inr st' => for_loop rest st'
      | inl (e, st') => (except_block row e st', Broke (city row) e)
      end
  end.

(** Lines 64-72: read the existing table, filter the input. *)
Definition initial_state (output : option dataframe) : state :=
  let st := {| output_file := output; all_results := []; trace := [] |} in
  match output with
  | Some _ =>
      emit (Print (AlreadyProcessed (processed_cities output)))
           (emit ReadOutput st)
  | None => st
  end.

Definition main (input : list source_row) (output : option dataframe)
  : state * loop_exit :=
  let data := unprocessed (processed_cities output) input in
  for_loop data (initial_state output).

End Pipeline.

Arguments source_row : clear implicits.
Arguments params : clear implicits.
Arguments hourly_values : clear implicits.
Arguments observation : clear implicits.
Arguments weather_row : clear implicits.
Arguments dataframe : clear implicits.
Arguments api_result : clear implicits.
Arguments event : clear implicits.
Arguments state : clear implicits.

(** Projections of a trace. *)
Definition requests {number} (tr : list (event number)) : list (params number) :=
  omap (fun e => match e with Request p => Some p | _ => None end) tr.

Definition sleeps {number} (tr : list (event number)) : list Z :=
  omap (fun e => match e with Sleep s => Some s | _ => None end) tr.

Definition writes {number} (tr : list (event number)) : list (dataframe number) :=
  omap (fun e => match e with WriteOutput df => Some df | _ => None end) tr.

(** Merge-and-persist as the specification words it (section 4.5, steps
    (a) to (d)): nothing happens with an empty accumulator; otherwise the
    rows of the accumulated results are appended after the persisted rows
    and the result replaces the file. *)
Definition spec_merge {number} (output : option (dataframe number))
    (results : list (dataframe number)) : option (dataframe number) :=
  match results with
  | [] => output
  | _ :: _ => Some (default [] output ++ concat results)
  end.

(** The rows of a table that may not exist yet. *)
Definition table {number} (output : option (dataframe number)) : dataframe number :=
  default [] output.

(** The trace without console messages and file events: requests and
    sleeps, in order. *)
Definition pacing {number} (tr : list (event number)) : list (event number) :=
  omap (fun e => match e with Request _ | Sleep _ => Some e | _ => None end) tr.

(** The trace without console messages and reads: requests, sleeps and
    writes, in order. *)
Definition effects {number} (tr : list (event number)) : list (event number) :=
  omap (fun e => match e with
                 | Request _ | Sleep _ | WriteOutput _ => Some e
                 | _ => None
                 end) tr.

(** The requests and sleeps of a sequence of lookups that all succeed:
    every request is followed by a sleep of [delay] seconds. *)
Definition paced {number} (start_date end_date : string) (delay : Z)
    (rows : list (source_row number)) : list (event number) :=
  flat_map (fun row => [Request (request_params start_date end_date row);
                        Sleep delay]) rows.

(** The lookup for a source row answers with a series. *)
Definition succeeds {number} (weather_api : params number -> api_result number)
    (start_date end_date : string) (row : source_row number) : Prop :=
  exists series,
    weather_api (request_params start_date end_date row) = Hourly series.

End Weather.

(* ===================================================================== *)
(** ** russian_cities_with_coords.py, step 2 (lines 93-129) *)
(* ===================================================================== *)

Module Geocode.

(** The pair returned by [get_coordinates]; [(None, None)] when the
    geocoder knows no such place. *)
Abbreviation coords number := (option number * option number)%type.

Section Pipeline.

Context {number : Type}.

(** A row of [russian_cities.csv], as read back on line 119.  Step 1 of
    the script (download and cleaning of the encyclopedia table) is the
    producer of this list and is taken as given. *)
Record city_row : Type := {
  city : string;
  region : string;
  population : Z
}.

(** A row of [cities_with_coordinates.csv]. *)
Record geocoded_row : Type := {
  source : city_row;
  latitude : option number;
  longitude : option number
}.

(** What one call of [geolocator.geocode] does: return a location, return
    [None], raise [GeocoderTimedOut], or raise something else. *)
Inductive geocode_result : Type :=
  | Location (lat lon : number)
  | NoLocation
  | GeocoderTimedOut
  | GeocodeRaised (e : exn).

Inductive event : Type :=
  | Geocode (query : string)
  | Sleep (secs : Z).

(** The closure state of [get_coordinates]: the dictionary [cache], the
    number of geocoder calls made so far and the trace. *)
Record state : Type := {
  cache : gmap string (coords number);
  calls : nat;
  trace : list event
}.

(** The files of step 2. *)
Record files : Type := {
  output_file : option (list geocoded_row);
  cache_file : option (gmap string (coords number))
}.

(** The geocoding service: the answer to the [n]-th call of the run, for
    the query it is given. *)
Variable geolocator_geocode : nat -> string -> geocode_result.

(** What leaves a call of the geocoder in which the interpreter's stack
    gives out: [RecursionError] with the message of the interpreter, or
    what the geocoder makes of it.  It is not the timeout. *)
Variable stack_overflow : exn.

Definition cache_key (city region : string) : string :=
  city +:+ ", " +:+ region.

Definition geocode_query (city region : string) : string :=
  city +:+ ", " +:+ region +:+ ", Russia".

Definition called (query : string) (st : state) : state :=
  {| cache := cache st;
     calls := S (calls st);
     trace := trace st ++ [Geocode query] |}.

Definition slept (secs : Z) (st : state) : state :=
  {| cache := cache st;
     calls := calls st;
     trace := trace st ++ [Sleep secs] |}.

(** [cache[key] = coords] *)
Definition store (key : string) (v : coords number) (st : state) : state :=
  {| cache := <[key := v]> (cache st);
     calls := calls st;
     trace := trace st |}.

(** Lines 103-117.  [stack] is the number of nested activations whose
    call of the geocoder the interpreter's stack still holds: the recursion
    limit less the frames below [get_coordinates] and those the geocoder
    needs.  Every activation adds a frame, the geocoder is what reaches
    deepest, so the stack gives out inside a call of the geocoder: that
    call raises [stack_overflow], which leaves the function as any other
    exception does that is not a timeout.  [inl e] is an exception that
    leaves the function. *)
Fixpoint get_coordinates (stack : nat) (city region : string) (st : state)
  : (exn + coords number) * state :=
  let key := cache_key city region in
  match cache st !! key with
  | Some cached => (inr cached, st)
  | None =>
      let query := geocode_query city region in
      let st1 := called query st in
      match stack with
      | O => (inl stack_overflow, st1)
      | S stack =>
          match geolocator_geocode (calls st) query with
          | Location lat lon =>
              let found := (Some lat, Some lon) in
              (inr found, store key found st1)
          | NoLocation =>
              let missing := (None, None) in
              (inr missing, store key missing st1)
          | GeocoderTimedOut =>
              get_coordinates stack city region (slept 1 st1)
          | GeocodeRaised e => (inl e, st1)
          end
      end
  end.

(** [fill_missing_coords], line 122-123. *)
Definition fill_missing_coords (stack : nat) (row : city_row) (st : state)
  : (exn + geocoded_row) * state :=
  match get_coordinates stack (city row) (region row) st with
  | (inl e, st') => (inl e, st')
  | (inr (lat, lon), st') =>
      (inr {| source := row; latitude := lat; longitude := lon |}, st')
  end.

(** [DataFrame.apply(func, axis=1)] on a frame that has rows: the rows in
    order; the first exception ends the traversal. *)
Fixpoint apply_rows (stack : nat) (df : list city_row) (st : state)
  : (exn + list geocoded_row) * state :=
  match df with
  | [] => (inr [], st)
  | row :: rest =>
      match fill_missing_coords stack row st with
      | (inl e, st') => (inl e, st')
      | (inr r, st') =>
          match apply_rows stack rest st' with
          | (inl e, st'') => (inl e, st'')
          | (inr rs, st'') => (inr (r :: rs), st'')
          end
      end
  end.

(** The text of a missing cell in an f-string. *)
Definition nan : string := "nan".

(** Line 125, the traversal and the assignment of its result to the two
    new columns.  On a frame without rows [DataFrame.apply] calls the
    function once, on a row of missing values, to see what it returns,
    drops whatever that call raises, and answers with a copy of the frame;
    the assignment of its three columns to two then raises [ValueError]. *)
Definition progress_apply (stack : nat) (df : list city_row) (st : state)
  : (exn + list geocoded_row) * state :=
  match df with
  | [] =>
      let '(_, st') := get_coordinates stack nan nan st in
      (inl (ValueError "Columns must be same length as key"), st')
  | _ :: _ => apply_rows stack df st
  end.

(** Lines 97-101: [json.load] of the cache file, or the empty dictionary. *)
Definition load_cache (fs : files) : state :=
  {| cache := default ∅ (cache_file fs); calls := 0; trace := [] |}.

(** How a run of step 2 ends. *)
Inductive run_end : Type :=
  | Completed
  | Uncaught (e : exn).

(** Lines 97-129: load the cache, geocode every row, write the table
    (line 127) and dump the cache (lines 128-129).  An exception leaves
    the function before both writes. *)
Definition fetch_and_geocode_russian_cities (stack : nat) (df : list city_row)
    (fs : files)
  : files * run_end * list event :=
  match progress_apply stack df (load_cache fs) with
  | (inl e, st) => (fs, Uncaught e, trace st)
  | (inr rows, st) =>
      ({| output_file := Some rows; cache_file := Some (cache st) |},
       Completed, trace st)
  end.

End Pipeline.

Arguments geocoded_row : clear implicits.
Arguments geocode_result : clear implicits.
Arguments state : clear implicits.
Arguments files : clear implicits.

(** The geocoder calls of a trace. *)
Definition geocodes (tr : list event) : list string :=
  omap (fun e => match e with Geocode q => Some q | _ => None end) tr.

(** [n] attempts that timed out: each is the same request, followed by the
    one-second sleep of line 114. *)
Definition retries (query : string) (n : nat) : list event :=
  concat (replicate n [Geocode query; Sleep 1]).

(** How [get_coordinates] leaves on an answer of the geocoder that is not a
    timeout: with a pair, or with the exception. *)
Definition outcome_of {number} (res : geocode_result number)
    : option (exn + coords number) :=
  match res with
  | Location lat lon => Some (inr (Some lat, Some lon))
  | NoLocation => Some (inr (None, None))
  | GeocoderTimedOut => None
  | GeocodeRaised e => Some (inl e)
  end.

(** The output row of a city whose coordinates are in the dictionary. *)
Definition from_cache {number} (cache : gmap string (coords number))
    (row : city_row) : geocoded_row number :=
  let v := default (None, None) (cache !! cache_key (city row) (region row)) in
  {| source := row; latitude := v.1; longitude := v.2 |}.

(** The dictionary after a lookup that missed the cache: the pair is
    stored, an exception stores nothing. *)
Definition cache_after {number} (key : string) (r : exn + coords number)
    (cache : gmap string (coords number)) : gmap string (coords number) :=
  match r with
  | inr v => <[key := v]> cache
  | inl _ => cache
  end.

End Geocode.

(* ===================================================================== *)
(** ** Concrete cities, services and files *)
(* ===================================================================== *)

(** Numbers are integers here: coordinates in thousandths of a degree. *)
Module Examples.

Definition kazan : Weather.source_row Z :=
  {| Weather.city := "Kazan";
     Weather.latitude := 55796%Z; Weather.longitude := 49108%Z |}.

Definition moscow : Weather.source_row Z :=
  {| Weather.city := "Moscow";
     Weather.latitude := 55755%Z; Weather.longitude := 37617%Z |}.

(** Two cities of the list share the name Kirovsk. *)
Definition kirovsk_leningrad : Weather.source_row Z :=
  {| Weather.city := "Kirovsk";
     Weather.latitude := 59875%Z; Weather.longitude := 30981%Z |}.

Definition kirovsk_murmansk : Weather.source_row Z :=
  {| Weather.city := "Kirovsk";
     Weather.latitude := 67614%Z; Weather.longitude := 33672%Z |}.

Definition frost : Weather.hourly_values Z :=
  {| Weather.temperature_2m := (-5)%Z;
     Weather.relative_humidity_2m := 80%Z;
     Weather.rain := 0%Z;
     Weather.snowfall := 1%Z;
     Weather.snow_depth := 20%Z;
     Weather.is_day := 0%Z;
     Weather.precipitation := 1%Z;
     Weather.wind_direction_100m := 270%Z;
     Weather.wind_speed_100m := 12%Z |}.

(** The first two six-hour steps of 2023-01-01. *)
Definition new_year : list (Weather.observation Z) :=
  [ {| Weather.time := 1672531200%Z; Weather.values := frost |};
    {| Weather.time := 1672552800%Z; Weather.values := frost |} ].

(** An archive that answers every request. *)
Definition archive_up (p : Weather.params Z) : Weather.api_result Z :=
  Weather.Hourly new_year.

(** An archive that fails on the coordinates of Moscow. *)
Definition archive_without_moscow (p : Weather.params Z) : Weather.api_result Z :=
  if (Weather.p_latitude p =? 55755)%Z
  then Weather.Raised (OpenMeteoRequestsError "no data")
  else Weather.Hourly new_year.

(** An archive that fails on the coordinates of Kirovsk in Murmansk Oblast. *)
Definition archive_without_murmansk (p : Weather.params Z) : Weather.api_result Z :=
  if (Weather.p_latitude p =? 67614)%Z
  then Weather.Raised (OpenMeteoRequestsError "no data")
  else Weather.Hourly new_year.

(** An archive that fails on Moscow and answers for Kazan with a series of
    no time step. *)
Definition archive_empty_for_kazan (p : Weather.params Z) : Weather.api_result Z :=
  if (Weather.p_latitude p =? 55755)%Z
  then Weather.Raised (OpenMeteoRequestsError "no data")
  else if (Weather.p_latitude p =? 55796)%Z
       then Weather.Hourly []
       else Weather.Hourly new_year.

(** The weather pipeline on these, from 2023-01-01 to 2023-01-02, thirty
    seconds between requests. *)
Definition run (api : Weather.params Z -> Weather.api_result Z)
    (input : list (Weather.source_row Z)) (output : option (Weather.dataframe Z))
  : Weather.state Z * Weather.loop_exit :=
  Weather.main api "2023-01-01" "2023-01-02" 30%Z input output.

Definition request_for (row : Weather.source_row Z) : Weather.params Z :=
  Weather.request_params "2023-01-01" "2023-01-02" row.

(** A table that already holds a row for Kirovsk. *)
Definition kirovsk_saved : Weather.dataframe Z :=
  Weather.hourly_frame "Kirovsk" new_year.

(** A table that already holds the rows of Moscow. *)
Definition moscow_saved : Weather.dataframe Z :=
  Weather.hourly_frame "Moscow" new_year.

Definition kirovsk : Geocode.city_row :=
  {| Geocode.city := "Kirovsk"; Geocode.region := "Murmansk Oblast";
     Geocode.population := 26206%Z |}.

Definition apatity : Geocode.city_row :=
  {| Geocode.city := "Apatity"; Geocode.region := "Murmansk Oblast";
     Geocode.population := 54667%Z |}.

Definition kirovsk_coords : Geocode.coords Z := (Some 67614%Z, Some 33672%Z).

Definition apatity_coords : Geocode.coords Z := (Some 67568%Z, Some 33407%Z).

Definition kirovsk_geocoded : Geocode.geocoded_row Z :=
  {| Geocode.source := kirovsk;
     Geocode.latitude := Some 67614%Z; Geocode.longitude := Some 33672%Z |}.

Definition apatity_geocoded : Geocode.geocoded_row Z :=
  {| Geocode.source := apatity;
     Geocode.latitude := Some 67568%Z; Geocode.longitude := Some 33407%Z |}.

(** What CPython raises when the stack gives out. *)
Definition recursion_error : exn :=
  RecursionError "maximum recursion depth exceeded".

(** A geocoder whose first answer times out. *)
Definition slow_geocoder (n : nat) (query : string) : Geocode.geocode_result Z :=
  match n with
  | O => Geocode.GeocoderTimedOut
  | S _ => Geocode.Location 67614%Z 33672%Z
  end.

(** A geocoder that answers once and then fails with an error that is not
    a timeout. *)
Definition failing_geocoder (n : nat) (query : string) : Geocode.geocode_result Z :=
  match n with
  | O => Geocode.Location 67614%Z 33672%Z
  | S _ => Geocode.GeocodeRaised (GeocoderServiceError "service unavailable")
  end.

(** A geocoder that is down. *)
Definition dead_geocoder (n : nat) (query : string) : Geocode.geocode_result Z :=
  Geocode.GeocoderTimedOut.

Definition no_files : Geocode.files Z :=
  {| Geocode.output_file := None; Geocode.cache_file := None |}.

(** The state of the first lookup of Kirovsk with [slow_geocoder], after it
    returned. *)
Definition kirovsk_looked_up : Geocode.state Z :=
  {| Geocode.cache := {[ "Kirovsk, Murmansk Oblast" := kirovsk_coords ]};
     Geocode.calls := 2;
     Geocode.trace :=
       [ Geocode.Geocode "Kirovsk, Murmansk Oblast, Russia";
         Geocode.Sleep 1;
         Geocode.Geocode "Kirovsk, Murmansk Oblast, Russia" ] |}.

(** The files after a completed run over Kirovsk alone. *)
Definition kirovsk_files : Geocode.files Z :=
  {| Geocode.output_file := Some [kirovsk_geocoded];
     Geocode.cache_file :=
       Some {[ "Kirovsk, Murmansk Oblast" := kirovsk_coords ]} |}.

(** The files after a completed run over an earlier edition of the list,
    which had Kirovsk and Apatity. *)
Definition earlier_files : Geocode.files Z :=
  {| Geocode.output_file := Some [kirovsk_geocoded; apatity_geocoded];
     Geocode.cache_file :=
       Some (<[ "Apatity, Murmansk Oblast" := apatity_coords ]>
               {[ "Kirovsk, Murmansk Oblast" := kirovsk_coords ]}) |}.

End Examples.

(* ===================================================================== *)
(** ** What a batch of lookups yields *)
(* ===================================================================== *)

Module Batch.

Import Weather.

(** The time steps of an answer; none when the lookup raised. *)
Definition series_of {number} (res : api_result number) : list (observation number) :=
  match res with
  | Hourly series => series
  | Raised _ => []
  end.

(** The frame that line 118 builds for a source row from the answer of the
    archive. *)
Definition frame_of {number} (weather_api : params number -> api_result number)
    (start_date end_date : string) (row : source_row number) : dataframe number :=
  hourly_frame (city row)
    (series_of (weather_api (request_params start_date end_date row))).

(** The lookup for a source row answers with at least one time step. *)
Definition yields_rows {number} (weather_api : params number -> api_result number)
    (start_date end_date : string) (row : source_row number) : Prop :=
  exists o series,
    weather_api (request_params start_date end_date row) = Hourly (o :: series).

End Batch.

(* ===================================================================== *)
(** ** russian_cities_with_coords.py, step 1 (lines 66-91) *)
(* ===================================================================== *)

(** The names of cities and regions are the UTF-8 bytes of the Python
    strings.  The searched marker is ASCII and two-byte Cyrillic letters,
    and no encoded character begins inside another one, so a match on
    bytes is a match on characters.  The population cell is filtered by a
    class of characters; it is the list of its code points. *)
Module Cleaning.

(** A Python string as the list of its code points. *)
Definition codepoints : Type := list N.

(** The code points of a text in ASCII. *)
Definition codes (text : string) : codepoints :=
  Ascii.N_of_ascii <$> String.list_ascii_of_string text.

(** A row of the encyclopedia table after the renaming and the column
    selection of lines 66-71; the population cell is the text of
    [astype(str)]. *)
Record raw_row : Type := {
  raw_city : string;
  raw_region : string;
  raw_population : codepoints
}.

(** An ASCII decimal digit. *)
Definition is_ascii_digit (c : N) : bool := (48 <=? c)%N && (c <=? 57)%N.

(** The number a string of ASCII digits denotes, read from the left onto
    [acc]. *)
Fixpoint digits_value (acc : N) (digits : codepoints) : N :=
  match digits with
  | [] => acc
  | c :: rest => digits_value (10 * acc + (c - 48))%N rest
  end.

Definition digits_number (digits : codepoints) : Z :=
  Z.of_N (digits_value 0 digits).

Section Population.

(** The decimal digits beyond ASCII that the regular-expression engine
    knows: for Python's [re], the characters of category Nd in the Unicode
    tables of the interpreter, which differ between versions; none for an
    engine whose [\d] is ASCII. *)
Variable unicode_decimal : N -> bool.

(** What line 73 makes of a string of ASCII digits that denotes 2^53 or
    more.  From there on the result is not the number: it is rounded when
    another cell of the column is missing (the column is [float64]), it
    wraps where the integer type ends, and which of these happens depends
    on the rest of the column and on the platform.  Within one table it is
    a function of the digits. *)
Variable inexact : codepoints -> Z.

(** A decimal digit: what the regular expression [\d] matches in a
    Python string, and [\D] does not. *)
Definition is_digit (c : N) : bool :=
  is_ascii_digit c || ((128 <=? c)%N && unicode_decimal c).

(** [.str.replace(r'\D', '', regex=True)], line 72. *)
Fixpoint remove_non_digits (text : codepoints) : codepoints :=
  match text with
  | [] => []
  | c :: rest =>
      if is_digit c then c :: remove_non_digits rest
      else remove_non_digits rest
  end.

(** [pd.to_numeric(..., errors='coerce').fillna(0).astype(int)], line 73,
    on a string of decimal digits.  [to_numeric] reads ASCII digits only: a
    string with another digit is coerced to NaN, as is the empty string,
    and NaN becomes 0. *)
Definition to_numeric (digits : codepoints) : Z :=
  if forallb is_ascii_digit digits
  then if (digits_number digits <? 2 ^ 53)%Z
       then digits_number digits
       else inexact digits
  else 0%Z.

Definition clean_population (text : codepoints) : Z :=
  to_numeric (remove_non_digits text).

(** The text has no decimal digit. *)
Fixpoint has_no_digit (text : codepoints) : bool :=
  match text with
  | [] => true
  | c :: rest => negb (is_digit c) && has_no_digit rest
  end.

(** The text has a decimal digit that is not ASCII. *)
Definition has_foreign_digit (text : codepoints) : bool :=
  existsb (fun c => (128 <=? c)%N && unicode_decimal c) text.

End Population.

(** Lines 75-81. *)
Definition region_map : gmap string string :=
  list_to_map
    [ ("Ханты-Мансийский АО", "Ханты-Мансийский автономный округ");
      ("Чукотский АО", "Чукотский автономный округ");
      ("Еврейская АО", "Еврейская автономная область");
      ("Ямало-Ненецкий АО", "Ямало-Ненецкий автономный округ");
      ("Ненецкий АО", "Ненецкий автономный округ") ].

(** [Series.replace(mapping)], line 82: a cell equal to a key becomes the
    value of that key; every other cell stays. *)
Definition replace (mapping : gmap string string) (cell : string) : string :=
  default cell (mapping !! cell).

(** The text without its first [n] bytes. *)
Fixpoint skip (n : nat) (text : string) : string :=
  match n, text with
  | O, _ => text
  | S n, String _ rest => skip n rest
  | S _, EmptyString => EmptyString
  end.

(** A literal pattern under [case=False]: per position, the spellings that
    match it. *)
Definition pattern : Type := list (list string).

(** The pattern of line 84, [не призн\.]: each letter in lower and in
    upper case, the space and the full stop as they are. *)
Definition marker : pattern :=
  [ ["н"; "Н"]; ["е"; "Е"]; [" "]; ["п"; "П"]; ["р"; "Р"]; ["и"; "И"];
    ["з"; "З"]; ["н"; "Н"]; ["."] ].

(** The pattern matches at the beginning of the text. *)
Fixpoint matches_at (p : pattern) (text : string) : bool :=
  match p with
  | [] => true
  | spellings :: rest =>
      existsb (fun spelling =>
                 String.prefix spelling text
                 && matches_at rest (skip (String.length spelling) text))
              spellings
  end.

(** [.str.contains(pattern, case=False, na=False)]: the pattern matches
    somewhere in the text. *)
Fixpoint contains (p : pattern) (text : string) : bool :=
  matches_at p text
  || match text with
     | EmptyString => false
     | String _ rest => contains p rest
     end.

(** Every way to spell the pattern: one spelling per position. *)
Fixpoint spellings (p : pattern) : list string :=
  match p with
  | [] => [""]
  | spellings_here :: rest =>
      flat_map (fun spelling => (fun word => spelling +:+ word) <$> spellings rest)
               spellings_here
  end.

(** Lines 72-82 on one row. *)
Definition clean (unicode_decimal : N -> bool) (inexact : codepoints -> Z)
    (r : raw_row) : Geocode.city_row :=
  {| Geocode.city := raw_city r;
     Geocode.region := replace region_map (raw_region r);
     Geocode.population :=
       clean_population unicode_decimal inexact (raw_population r) |}.

(** Lines 84-86: the rows with the marker, and the others. *)
Definition df_unrecognized (df : list Geocode.city_row) : list Geocode.city_row :=
  filter (fun r => contains marker (Geocode.city r) = true) df.

Definition df_recognized (df : list Geocode.city_row) : list Geocode.city_row :=
  filter (fun r => ~ contains marker (Geocode.city r) = true) df.

End Cleaning.

(* ===================================================================== *)
(** ** russian_cities_with_coords.py, the whole function *)
(* ===================================================================== *)

Module Script.

Import Geocode Cleaning.

Section Run.

Context {number : Type}.

(** The four files of the script. *)
Record disk : Type := {
  russian_cities : option (list city_row);
  unrecognized_cities : option (list city_row);
  geocoding : files number
}.

(** Lines 131-137: the closing message. *)
Inductive report : Type :=
  | NotGeocoded (cities : list (string * string))
  | AllGeocoded.

(** Line 131: the rows without a latitude or without a longitude. *)
Definition missing_coords (rows : list (geocoded_row number))
  : list (geocoded_row number) :=
  filter (fun r => latitude r = None \/ longitude r = None) rows.

Definition final_report (rows : list (geocoded_row number)) : report :=
  match missing_coords rows with
  | [] => AllGeocoded
  | missing =>
      NotGeocoded ((fun r => (city (source r), region (source r))) <$> missing)
  end.

Variable unicode_decimal : N -> bool.
Variable inexact : codepoints -> Z.
Variable geolocator_geocode : nat -> string -> geocode_result number.
Variable stack_overflow : exn.

(** Lines 66-139 from the table of line 71 on: clean, split, write both
    city lists (lines 88-89), then step 2 on the recognized cities as read
    back on line 119, then the report.  An exception in step 2 leaves the
    function after the city lists were written. *)
Definition run_script (stack : nat) (table : list raw_row) (d : disk)
  : disk * run_end * list event * option report :=
  let df := clean unicode_decimal inexact <$> table in
  let recognized := df_recognized df in
  let unrecognized := df_unrecognized df in
  let '(fs, ending, tr) :=
    fetch_and_geocode_russian_cities geolocator_geocode stack_overflow stack
      recognized (geocoding d) in
  ({| russian_cities := Some recognized;
      unrecognized_cities := Some unrecognized;
      geocoding := fs |},
   ending, tr,
   match ending with
   | Completed => final_report <$> output_file fs
   | Uncaught _ => None
   end).

End Run.

Arguments disk : clear implicits.

(** The sleeps of a trace. *)
Definition naps (tr : list event) : list Z :=
  omap (fun e => match e with Sleep secs => Some secs | _ => None end) tr.

(** Both coordinates or neither. *)
Definition paired {number} (v : coords number) : Prop :=
  v.1 = None <-> v.2 = None.

End Script.

(* ===================================================================== *)
(** ** A small city table and its services *)
(* ===================================================================== *)

Module Samples.

Import Examples.

(** An archive that answers every request with a series of no time step. *)
Definition archive_silent (p : Weather.params Z) : Weather.api_result Z :=
  Weather.Hourly [].

(** The first output row of Kazan. *)
Definition kazan_midnight : Weather.weather_row Z :=
  {| Weather.row_date := 1672531200%Z; Weather.row_city := "Kazan";
     Weather.row_values := frost |}.

(** Kirovsk as a later census counts it. *)
Definition kirovsk_census : Geocode.city_row :=
  {| Geocode.city := "Kirovsk"; Geocode.region := "Murmansk Oblast";
     Geocode.population := 26971%Z |}.

Definition kirovsk_census_geocoded : Geocode.geocoded_row Z :=
  {| Geocode.source := kirovsk_census;
     Geocode.latitude := Some 67614%Z; Geocode.longitude := Some 33672%Z |}.

(** The Arabic-Indic digits, U+0660 to U+0669, as the only decimal digits
    beyond ASCII. *)
Definition arabic_indic (c : N) : bool := (1632 <=? c)%N && (c <=? 1641)%N.

(** A column of integers without a missing cell: every number that fits is
    kept. *)
Definition int64_column (digits : Cleaning.codepoints) : Z :=
  Cleaning.digits_number digits.

(** The arrow of a growing population, U+2197. *)
Definition arrow : N := 8599%N.

(** Three rows of the encyclopedia table. *)
Definition raw_moscow : Cleaning.raw_row :=
  {| Cleaning.raw_city := "Москва"; Cleaning.raw_region := "Москва";
     Cleaning.raw_population := Cleaning.codes "13 010 112" |}.

Definition raw_salekhard : Cleaning.raw_row :=
  {| Cleaning.raw_city := "Салехард";
     Cleaning.raw_region := "Ямало-Ненецкий АО";
     Cleaning.raw_population := arrow :: Cleaning.codes "51 263[1]" |}.

Definition raw_yalta : Cleaning.raw_row :=
  {| Cleaning.raw_city := "Ялта (не призн.)"; Cleaning.raw_region := "Крым";
     Cleaning.raw_population := Cleaning.codes "74 652" |}.

Definition raw_table : list Cleaning.raw_row :=
  [raw_moscow; raw_salekhard; raw_yalta].

(** The same rows, cleaned. *)
Definition moscow_city : Geocode.city_row :=
  {| Geocode.city := "Москва"; Geocode.region := "Москва";
     Geocode.population := 13010112%Z |}.

Definition salekhard_city : Geocode.city_row :=
  {| Geocode.city := "Салехард";
     Geocode.region := "Ямало-Ненецкий автономный округ";
     Geocode.population := 512631%Z |}.

Definition yalta_city : Geocode.city_row :=
  {| Geocode.city := "Ялта (не призн.)"; Geocode.region := "Крым";
     Geocode.population := 74652%Z |}.

(** A geocoder that knows Moscow and nothing else. *)
Definition atlas (n : nat) (query : string) : Geocode.geocode_result Z :=
  if String.eqb query "Москва, Москва, Russia"
  then Geocode.Location 55755%Z 37617%Z
  else Geocode.NoLocation.

Definition moscow_geocoded : Geocode.geocoded_row Z :=
  {| Geocode.source := moscow_city;
     Geocode.latitude := Some 55755%Z; Geocode.longitude := Some 37617%Z |}.

Definition salekhard_geocoded : Geocode.geocoded_row Z :=
  {| Geocode.source := salekhard_city;
     Geocode.latitude := None; Geocode.longitude := None |}.

Definition atlas_cache : gmap string (Geocode.coords Z) :=
  <[ "Салехард, Ямало-Ненецкий автономный округ" := (None, None) ]>
    {[ "Москва, Москва" := (Some 55755%Z, Some 37617%Z) ]}.

Definition atlas_files : Geocode.files Z :=
  {| Geocode.output_file := Some [moscow_geocoded; salekhard_geocoded];
     Geocode.cache_file := Some atlas_cache |}.

Definition atlas_trace : list Geocode.event :=
  [ Geocode.Geocode "Москва, Москва, Russia";
    Geocode.Geocode "Салехард, Ямало-Ненецкий автономный округ, Russia" ].

Definition blank_disk : Script.disk Z :=
  {| Script.russian_cities := None; Script.unrecognized_cities := None;
     Script.geocoding := no_files |}.

Definition atlas_disk : Script.disk Z :=
  {| Script.russian_cities := Some [moscow_city; salekhard_city];
     Script.unrecognized_cities := Some [yalta_city];
     Script.geocoding := atlas_files |}.

Definition atlas_report : Script.report :=
  Script.NotGeocoded [("Салехард", "Ямало-Ненецкий автономный округ")].

End Samples.

(* ===================================================================== *)
(** ** Facts about the weather pipeline *)
(* ===================================================================== *)

Section WeatherFacts.

Import Weather.

Context {number : Type}.
Variable weather_api : params number -> api_result number.
Variables start_date end_date : string.
Variable delay : Z.

Local Abbreviation request_params := (request_params start_date end_date).
Local Abbreviation try_block := (try_block weather_api start_date end_date delay).
Local Abbreviation for_loop := (for_loop weather_api start_date end_date delay).
Local Abbreviation main := (main weather_api start_date end_date delay).
Local Abbreviation paced := (paced start_date end_date delay).
Local Abbreviation succeeds := (succeeds weather_api start_date end_date).

Implicit Types (st : state number) (row : source_row number)
         (data : list (source_row number)).

(** [time.sleep] accepts the seconds from zero up to the limit of the
    clock. *)
Lemma sleep_error_accepts (secs : Z) :
  sleep_error secs = None <-> (0 <= secs < sleep_limit)%Z.
Proof.
  unfold sleep_error, sleep_limit.
  destruct (Z.leb_spec 9223372037 (Z.abs secs)) as [Hbig|Hfits].
  - split; [done|]. intros Hrange. lia.
  - destruct (Z.ltb_spec secs 0) as [Hneg|Hpos].
    + split; [done|]. intros Hrange. lia.
    + split; [|done]. intros _. lia.
Qed.

(** What it raises otherwise: [ValueError] for a negative number within
    the limit, [OverflowError] beyond the limit on either side. *)
Lemma sleep_error_raises (secs : Z) e :
  sleep_error secs = Some e ->
  (e = ValueError "sleep length must be non-negative" /\
   (- sleep_limit < secs < 0)%Z) \/
  (e = OverflowError "timestamp too large to convert to C _PyTime_t" /\
   (sleep_limit <= Z.abs secs)%Z).
Proof.
  unfold sleep_error, sleep_limit.
  destruct (Z.leb_spec 9223372037 (Z.abs secs)).
  - intros [= <-]. by right.
  - destruct (Z.ltb_spec secs 0); [|done]. intros [= <-]. left. split; [done|lia].
Qed.

(** The [try] block, when it completes: one request, one more frame, one
    sleep of [delay] seconds. *)
Lemma try_block_inr row st st' :
  try_block row st = inr st' ->
  exists series,
    weather_api (request_params row) = Hourly series /\
    (0 <= delay < sleep_limit)%Z /\
    st' = {| output_file := output_file st;
             all_results := all_results st ++ [hourly_frame (city row) series];
             trace := trace st ++ [Request (request_params row);
                                   Print (DataReceived (city row) delay);
                                   Sleep delay] |}.
Proof.
  unfold Weather.try_block, time_sleep.
  destruct (weather_api _) as [e|series]; [discriminate|].
  destruct (sleep_error delay) as [e|] eqn:Hsleep; [discriminate|].
  intros [= <-]. exists series. split; [done|].
  split; [by apply sleep_error_accepts|].
  unfold emit, append_result; simpl. by rewrite <- !app_assoc.
Qed.

(** The [try] block, when an exception escapes it: either the request
    raised, or the sleep did after the frame had been appended. *)
Lemma try_block_inl row st e st' :
  try_block row st = inl (e, st') ->
  output_file st' = output_file st /\
  ((weather_api (request_params row) = Raised e /\
    all_results st' = all_results st /\
    trace st' = trace st ++ [Request (request_params row)])
   \/
   (exists series,
      weather_api (request_params row) = Hourly series /\
      sleep_error delay = Some e /\
      all_results st' = all_results st ++ [hourly_frame (city row) series] /\
      trace st' = trace st ++ [Request (request_params row);
                               Print (DataReceived (city row) delay)])).
Proof.
  unfold Weather.try_block, time_sleep.
  destruct (weather_api _) as [e0|series].
  - intros [= <- <-]. split; [done|]. by left.
  - destruct (sleep_error delay) as [e0|] eqn:Hsleep; [|discriminate].
    intros [= <- <-]. split; [done|]. right. exists series.
    repeat split; try done. simpl. by rewrite <- app_assoc.
Qed.

(** Both save blocks are [spec_merge] on the file; they only add console
    messages, a read and at most one write to the trace. *)
Lemma except_block_spec row e st :
  exists evs,
    except_block row e st =
      {| output_file := spec_merge (output_file st) (all_results st);
         all_results := all_results st;
         trace := trace st ++ evs |} /\
    pacing evs = [] /\
    writes evs = match all_results st with
                 | [] => []
                 | _ :: _ => [table (output_file st) ++ concat (all_results st)]
                 end.
Proof.
  unfold except_block, to_csv, emit, pd_concat, table; simpl.
  destruct st as [out results tr]; simpl.
  destruct results as [|df results]; simpl.
  - eexists. rewrite <- app_assoc. split; [reflexivity|]. done.
  - destruct out as [existing_df|]; simpl;
      eexists; rewrite <- ?app_assoc; (split; [reflexivity|]); done.
Qed.

Lemma else_block_spec st :
  exists evs,
    else_block st =
      {| output_file := spec_merge (output_file st) (all_results st);
         all_results := all_results st;
         trace := trace st ++ evs |} /\
    pacing evs = [] /\
    writes evs = match all_results st with
                 | [] => []
                 | _ :: _ => [table (output_file st) ++ concat (all_results st)]
                 end.
Proof.
  unfold else_block, to_csv, emit, pd_concat, table; simpl.
  destruct st as [out results tr]; simpl.
  destruct results as [|df results]; simpl.
  - eexists. split; [reflexivity|]. done.
  - destruct out as [existing_df|]; simpl;
      eexists; rewrite <- ?app_assoc; (split; [reflexivity|]); done.
Qed.

(** The loop never touches the file before it is left; when it is left the
    file is [spec_merge] of the file at entry and the accumulator at exit,
    and the accumulator has only grown. *)
Lemma for_loop_spec data st :
  exists evs more,
    output_file (for_loop data st).1
      = spec_merge (output_file st) (all_results (for_loop data st).1) /\
    all_results (for_loop data st).1 = all_results st ++ more /\
    trace (for_loop data st).1 = trace st ++ evs /\
    writes evs = match all_results (for_loop data st).1 with
                 | [] => []
                 | _ :: _ => [table (output_file st)
                              ++ concat (all_results (for_loop data st).1)]
                 end.
Proof.
  revert st. induction data as [|row rest IH]; intros st; simpl.
  - destruct (else_block_spec st) as (evs & -> & _ & Hw); simpl.
    exists evs, []. by rewrite app_nil_r.
  - destruct (try_block row st) as [[e st1]|st1] eqn:Htry.
    + apply try_block_inl in Htry as [Hout Hcases].
      destruct (except_block_spec row e st1) as (evs & -> & _ & Hw); simpl.
      rewrite Hout in *.
      destruct Hcases as [(_ & Hres & Htr)|(series & _ & _ & Hres & Htr)];
        rewrite Htr, <- app_assoc.
      * eexists _, []. split; [reflexivity|].
        split; [by rewrite Hres, app_nil_r|]. split; [reflexivity|].
        unfold writes in *. rewrite omap_app. exact Hw.
      * eexists _, [_]. split; [reflexivity|].
        split; [exact Hres|]. split; [reflexivity|].
        unfold writes in *. rewrite omap_app. exact Hw.
    + apply try_block_inr in Htry as (series & _ & _ & ->).
      destruct (IH {| output_file := output_file st;
                      all_results := all_results st ++ [hourly_frame (city row) series];
                      trace := trace st ++ [Request (request_params row);
                                            Print (DataReceived (city row) delay);
                                            Sleep delay] |})
        as (evs & more & Hout & Hres & Htr & Hw); simpl in *.
      eexists _, _. split; [exact Hout|].
      split; [by rewrite Hres, <- app_assoc|].
      split; [by rewrite Htr, <- app_assoc|].
      unfold writes in *. rewrite omap_app. simpl. exact Hw.
Qed.

Lemma initial_state_spec (output : option (dataframe number)) :
  output_file (initial_state output) = output /\
  all_results (initial_state output) = [] /\
  writes (trace (initial_state output)) = [] /\
  pacing (trace (initial_state output)) = [].
Proof. by destruct output. Qed.

(** A whole run, on the file: [spec_merge] of the file before the run and
    the accumulator at the end; at most one write, of that table. *)
Lemma main_spec input (output : option (dataframe number)) :
  output_file (main input output).1
    = spec_merge output (all_results (main input output).1) /\
  writes (trace (main input output).1)
    = match all_results (main input output).1 with
      | [] => []
      | _ :: _ => [table output ++ concat (all_results (main input output).1)]
      end.
Proof.
  unfold Weather.main.
  destruct (initial_state_spec output) as (Hout & Hres & Hw & _).
  destruct (for_loop_spec (unprocessed (processed_cities output) input)
              (initial_state output)) as (evs & more & -> & _ & -> & Hevs).
  rewrite Hout in Hevs |- *. split; [done|].
  unfold writes in *. by rewrite omap_app, Hw, Hevs.
Qed.

(** The table before a run is a prefix of the table after it. *)
Lemma main_appends input (output : option (dataframe number)) :
  table output `prefix_of` table (output_file (main input output).1).
Proof.
  destruct (main_spec input output) as [-> _].
  destruct (all_results _); simpl; [done|].
  by apply prefix_app_r.
Qed.

(** Every request of the loop is for one of the rows it was given, in
    their order, from the first one on. *)
Lemma for_loop_requests data st :
  exists attempted rest,
    data = attempted ++ rest /\
    requests (trace (for_loop data st).1)
      = requests (trace st) ++ (request_params <$> attempted).
Proof.
  revert st. induction data as [|row data IH]; intros st; simpl.
  - exists [], []. split; [done|].
    destruct (else_block_spec st) as (evs & -> & Hp & _); simpl.
    unfold requests, pacing in *. rewrite omap_app, app_nil_r.
    rewrite <- (app_nil_r (omap _ (trace st))) at 2. f_equal.
    clear -Hp. induction evs as [|[] evs IHevs]; simpl in *; try done; eauto.
  - destruct (try_block row st) as [[e st1]|st1] eqn:Htry.
    + apply try_block_inl in Htry as [_ Hcases].
      destruct (except_block_spec row e st1) as (evs & -> & Hp & _); simpl.
      assert (omap (fun ev : event number =>
                      match ev with Request p => Some p | _ => None end) evs = [])
        as Hreq.
      { clear -Hp. unfold pacing in Hp.
        induction evs as [|[] evs IHevs]; simpl in *; try done; eauto. }
      exists [row], data. split; [done|].
      unfold requests. rewrite omap_app, Hreq, app_nil_r.
      destruct Hcases as [(_ & _ & ->)|(series & _ & _ & _ & ->)];
        by rewrite omap_app.
    + apply try_block_inr in Htry as (series & _ & _ & ->).
      destruct (IH {| output_file := output_file st;
                      all_results := all_results st ++ [hourly_frame (city row) series];
                      trace := trace st ++ [Request (request_params row);
                                            Print (DataReceived (city row) delay);
                                            Sleep delay] |})
        as (attempted & rest & -> & ->); simpl.
      exists (row :: attempted), rest. split; [done|].
      unfold requests. rewrite omap_app. simpl. by rewrite <- app_assoc.
Qed.

(** The filter keeps a row exactly when its city name is in no row of the
    existing table. *)
Lemma elem_of_unprocessed (output : option (dataframe number)) input row :
  row ∈ unprocessed (processed_cities output) input <->
  row ∈ input /\ city row ∉ row_city <$> table output.
Proof.
  unfold unprocessed. rewrite list_elem_of_filter.
  destruct output as [existing_df|]; simpl.
  - rewrite elem_of_list_to_set. tauto.
  - split; intros [H1 H2]; split; try assumption.
    + apply not_elem_of_nil.
    + apply not_elem_of_empty.
Qed.

Lemma unprocessed_all_done (output : option (dataframe number)) input :
  (forall row, row ∈ input -> city row ∈ processed_cities output) ->
  unprocessed (processed_cities output) input = [].
Proof.
  intros Hall. unfold unprocessed.
  induction input as [|row input IH]; [done|].
  rewrite filter_cons_False.
  - apply IH. intros r Hr. apply Hall. by right.
  - intros Hnot. apply Hnot, Hall. by left.
Qed.

Lemma requests_pacing (tr : list (event number)) :
  requests tr = requests (pacing tr).
Proof.
  induction tr as [|[] tr IH]; simpl; try done. by f_equal.
Qed.

Lemma pacing_app (tr1 tr2 : list (event number)) :
  pacing (tr1 ++ tr2) = pacing tr1 ++ pacing tr2.
Proof. apply omap_app. Qed.

(** One iteration of the loop, by what the lookup does. *)
Lemma for_loop_cons_ok row rest st series :
  (0 <= delay < sleep_limit)%Z ->
  weather_api (request_params row) = Hourly series ->
  for_loop (row :: rest) st =
  for_loop rest
    {| output_file := output_file st;
       all_results := all_results st ++ [hourly_frame (city row) series];
       trace := trace st ++ [Request (request_params row);
                             Print (DataReceived (city row) delay);
                             Sleep delay] |}.
Proof.
  intros Hd%sleep_error_accepts Hapi. simpl.
  unfold Weather.try_block, time_sleep. rewrite Hapi, Hd.
  unfold emit, append_result; simpl. by rewrite <- !app_assoc.
Qed.

Lemma for_loop_cons_raise row rest st e :
  weather_api (request_params row) = Raised e ->
  for_loop (row :: rest) st =
  (except_block row e (emit (Request (request_params row)) st),
   Broke (city row) e).
Proof.
  intros Hapi. simpl. unfold Weather.try_block. by rewrite Hapi.
Qed.

Lemma for_loop_cons_sleep_raises row rest st series e :
  sleep_error delay = Some e ->
  weather_api (request_params row) = Hourly series ->
  exists st',
    for_loop (row :: rest) st = (except_block row e st', Broke (city row) e) /\
    output_file st' = output_file st /\
    all_results st' = all_results st ++ [hourly_frame (city row) series] /\
    requests (trace st') = requests (trace st) ++ [request_params row] /\
    pacing (trace st') = pacing (trace st) ++ [Request (request_params row)].
Proof.
  intros Hd Hapi. simpl. unfold Weather.try_block, time_sleep. rewrite Hapi, Hd.
  eexists. split; [reflexivity|]. simpl. repeat split.
  - unfold requests. by rewrite <- app_assoc, omap_app.
  - unfold pacing. by rewrite <- app_assoc, omap_app.
Qed.

(** C6.  If a run of the weather pipeline ends with an empty accumulator
    (no lookup succeeded), the output file after the run is the output file
    before it, absent if it was absent, and the run wrote nothing. *)
Theorem empty_accumulator_no_write input (output : option (dataframe number)) :
  all_results (main input output).1 = [] ->
  output_file (main input output).1 = output /\
  writes (trace (main input output).1) = [].
Proof.
  intros Hnone. destruct (main_spec input output) as [Hout Hw].
  rewrite Hnone in Hout, Hw. by split.
Qed.

(** The example of C6: the first attempted lookup raises. *)
Lemma first_lookup_raises input (output : option (dataframe number)) row rest e :
  unprocessed (processed_cities output) input = row :: rest ->
  weather_api (request_params row) = Raised e ->
  all_results (main input output).1 = [] /\
  (main input output).2 = Broke (city row) e.
Proof.
  intros Hdata Hapi. unfold Weather.main. rewrite Hdata.
  rewrite (for_loop_cons_raise _ _ _ _ Hapi); simpl.
  destruct (except_block_spec row e
              (emit (Request (request_params row)) (initial_state output)))
    as (evs & -> & _); simpl.
  by destruct output.
Qed.

(** C7.  The save sequence of the [except] branch and the save sequence of
    the loop's [else] branch are the same transformation of the existing
    output file and the accumulated results: from the same file and the
    same accumulator both leave the same file, the one the specified
    merge-and-persist yields, and both issue the same writes. *)
Theorem save_paths_agree row e (out : option (dataframe number))
    (results : list (dataframe number)) (tr1 tr2 : list (event number)) :
  let on_error :=
    except_block row e
      {| output_file := out; all_results := results; trace := tr1 |} in
  let on_exhaustion :=
    else_block {| output_file := out; all_results := results; trace := tr2 |} in
  output_file on_error = output_file on_exhaustion /\
  output_file on_exhaustion = spec_merge out results /\
  exists w, writes (trace on_error) = writes tr1 ++ w /\
            writes (trace on_exhaustion) = writes tr2 ++ w.
Proof.
  intros on_error on_exhaustion. subst on_error on_exhaustion.
  destruct (except_block_spec row e
              {| output_file := out; all_results := results; trace := tr1 |})
    as (evs1 & -> & _ & Hw1).
  destruct (else_block_spec
              {| output_file := out; all_results := results; trace := tr2 |})
    as (evs2 & -> & _ & Hw2).
  simpl in *. split; [done|]. split; [done|].
  exists (writes evs1). unfold writes in *. rewrite !omap_app.
  split; [done|]. by rewrite Hw2, <- Hw1.
Qed.

(** C8.  A second run of the weather pipeline on the same input, started
    on the output file the first run left and finding every source city in
    it, filters out every row, makes no request, exhausts its empty work
    list and leaves the file as it found it, without writing. *)
Theorem rerun_without_new_cities
    (api1 : params number -> api_result number) (start1 end1 : string)
    (delay1 : Z) input (output : option (dataframe number)) :
  let after1 :=
    output_file (Weather.main api1 start1 end1 delay1 input output).1 in
  (forall row, row ∈ input -> city row ∈ processed_cities after1) ->
  unprocessed (processed_cities after1) input = [] /\
  (main input after1).2 = Exhausted /\
  requests (trace (main input after1).1) = [] /\
  writes (trace (main input after1).1) = [] /\
  output_file (main input after1).1 = after1.
Proof.
  intros after1 Hall.
  pose proof (unprocessed_all_done after1 input Hall) as Hnil.
  split; [exact Hnil|]. unfold Weather.main. rewrite Hnil. simpl.
  destruct (else_block_spec (initial_state after1)) as (evs & -> & Hp & Hw).
  destruct (initial_state_spec after1) as (Hout & Hres & Hw0 & Hp0).
  simpl. rewrite Hres in *. simpl in *.
  split; [done|].
  split; [by rewrite requests_pacing, pacing_app, Hp0, Hp|].
  split; [|done].
  unfold writes in *. by rewrite omap_app, Hw0, Hw.
Qed.

(** C10.  The processed-set filter of the weather pipeline looks at the
    city name only.  The work list is the input without the rows whose
    city name occurs in the [city] column of the existing output table,
    and with every other row, in input order: a source row is kept exactly
    when its name is in no row of the table, whatever its coordinates, so
    that two source rows of one name are kept together or dropped
    together; and whatever the requested dates, the delay and the archive,
    every request of the run is for a row of that work list. *)
Theorem filter_keys_on_city_name input (output : option (dataframe number)) :
  unprocessed (processed_cities output) input
    = filter (fun row => city row ∉ row_city <$> table output) input /\
  (forall row,
     row ∈ unprocessed (processed_cities output) input <->
     row ∈ input /\ city row ∉ row_city <$> table output) /\
  (forall row1 row2,
     row1 ∈ input -> row2 ∈ input -> city row1 = city row2 ->
     (row1 ∈ unprocessed (processed_cities output) input <->
      row2 ∈ unprocessed (processed_cities output) input)) /\
  (forall p, p ∈ requests (trace (main input output).1) ->
     exists row,
       row ∈ unprocessed (processed_cities output) input /\
       p = request_params row).
Proof.
  split; [|split; [|split]].
  - unfold unprocessed. apply list_filter_iff. intros row.
    destruct output as [existing_df|]; simpl.
    + by rewrite elem_of_list_to_set.
    + split; intros _; [apply not_elem_of_nil|apply not_elem_of_empty].
  - apply elem_of_unprocessed.
  - intros row1 row2 Hin1 Hin2 Hsame.
    rewrite !elem_of_unprocessed, Hsame. tauto.
  - intros p Hp. unfold Weather.main in Hp.
    destruct (for_loop_requests (unprocessed (processed_cities output) input)
                (initial_state output)) as (attempted & rest & Hdata & Hreq).
    rewrite Hreq in Hp.
    destruct (initial_state_spec output) as (_ & _ & _ & Hp0).
    rewrite (requests_pacing (trace _)), Hp0 in Hp. simpl in Hp.
    apply list_elem_of_fmap in Hp as (row & -> & Hrow).
    exists row. split; [|done].
    rewrite Hdata. apply elem_of_app. by left.
Qed.

Lemma effects_app (tr1 tr2 : list (event number)) :
  effects (tr1 ++ tr2) = effects tr1 ++ effects tr2.
Proof. apply omap_app. Qed.

Lemma writes_app (tr1 tr2 : list (event number)) :
  writes (tr1 ++ tr2) = writes tr1 ++ writes tr2.
Proof. apply omap_app. Qed.

(** Events without a request and without a sleep: the writes are all that
    is left of them. *)
Lemma effects_without_pacing (evs : list (event number)) :
  pacing evs = [] -> effects evs = WriteOutput <$> writes evs.
Proof.
  induction evs as [|[] evs IH]; simpl; try done; intros Hp; try by apply IH.
  f_equal. by apply IH.
Qed.

(** With a delay that [time.sleep] accepts, the requests, sleeps and
    writes of the loop: request and sleep for every row until the first
    lookup that raises, only the request for that one, and after all of
    them what the save block writes. *)
Lemma for_loop_effects data st :
  (0 <= delay < sleep_limit)%Z ->
  exists saved,
    writes (trace (for_loop data st).1) = writes (trace st) ++ saved /\
    match (for_loop data st).2 with
    | Exhausted =>
        Forall succeeds data /\
        effects (trace (for_loop data st).1)
          = effects (trace st) ++ paced data ++ (WriteOutput <$> saved)
    | Broke c e =>
        exists done failed rest,
          data = done ++ failed :: rest /\
          Forall succeeds done /\
          city failed = c /\
          weather_api (request_params failed) = Raised e /\
          effects (trace (for_loop data st).1)
            = effects (trace st) ++ paced done
              ++ [Request (request_params failed)] ++ (WriteOutput <$> saved)
    end.
Proof.
  intros Hd. revert st. induction data as [|row data IH]; intros st.
  - simpl.
    destruct (else_block_spec st) as (evs & -> & Hp & _); simpl.
    exists (writes evs). split; [apply writes_app|]. split; [constructor|].
    by rewrite effects_app, (effects_without_pacing _ Hp).
  - destruct (weather_api (request_params row)) as [e|series] eqn:Hapi.
    + rewrite (for_loop_cons_raise _ _ _ _ Hapi); simpl.
      destruct (except_block_spec row e (emit (Request (request_params row)) st))
        as (evs & -> & Hp & _); simpl.
      exists (writes evs). split.
      { rewrite !writes_app. simpl. by rewrite app_nil_r. }
      exists [], row, data. repeat split; try done.
      rewrite !effects_app, (effects_without_pacing _ Hp). simpl.
      by rewrite <- app_assoc.
    + rewrite (for_loop_cons_ok _ _ _ _ Hd Hapi).
      match goal with
      | |- context [for_loop data ?s] =>
          destruct (IH s) as (saved & Hw & Hrest); set (st1 := s) in *
      end.
      assert (effects (trace st1)
              = effects (trace st) ++ [Request (request_params row); Sleep delay])
        as Hst1 by (subst st1; simpl; by rewrite effects_app).
      assert (writes (trace st1) = writes (trace st)) as Hw1.
      { subst st1; simpl. rewrite writes_app. simpl. by rewrite app_nil_r. }
      exists saved. split; [by rewrite Hw, Hw1|].
      destruct (for_loop data st1).2 as [|c e].
      * destruct Hrest as [Hall ->]. split.
        -- constructor; [by exists series|done].
        -- by rewrite Hst1, <- app_assoc.
      * destruct Hrest as (done & failed & rest & -> & Hall & Hc & Hfail & ->).
        exists (row :: done), failed, rest. repeat split; try done.
        -- constructor; [by exists series|done].
        -- rewrite Hst1. simpl. by rewrite <- !app_assoc.
Qed.


(** The cities of a table to which one frame was appended. *)
Lemma processed_cities_appended (output : option (dataframe number)) c
    (series : list (observation number)) x :
  x ∈ processed_cities (Some (table output ++ hourly_frame c series)) <->
  x ∈ processed_cities output \/ (x = c /\ series <> []).
Proof.
  simpl. rewrite elem_of_list_to_set, fmap_app, elem_of_app.
  assert (x ∈ row_city <$> table output <-> x ∈ processed_cities output) as ->.
  { destruct output as [existing_df|]; simpl.
    - by rewrite elem_of_list_to_set.
    - split; [by intros ?%elem_of_nil|by intros ?%elem_of_empty]. }
  assert (x ∈ row_city <$> hourly_frame c series <-> x = c /\ series <> []) as ->;
    [|done].
  unfold hourly_frame. rewrite <- list_fmap_compose.
  split.
  - intros (o & -> & Ho)%list_elem_of_fmap. split; [done|].
    intros ->. by apply elem_of_nil in Ho.
  - intros [-> Hne]. destruct series as [|o series]; [done|]. by left.
Qed.

Lemma unprocessed_cons_keep (processed : gset string) row data :
  city row ∉ processed ->
  unprocessed processed (row :: data) = row :: unprocessed processed data.
Proof. intros Hnot. unfold unprocessed. by rewrite filter_cons_True. Qed.

Lemma unprocessed_cons_drop (processed : gset string) row data :
  city row ∈ processed ->
  unprocessed processed (row :: data) = unprocessed processed data.
Proof.
  intros Hin. unfold unprocessed. rewrite filter_cons_False; [done|].
  intros Hnot. by apply Hnot.
Qed.

Lemma unprocessed_nil (processed : gset string) :
  unprocessed processed ([] : list (source_row number)) = [].
Proof. done. Qed.

Lemma for_loop_nil_results st :
  all_results (for_loop [] st).1 = all_results st.
Proof. simpl. by destruct (else_block_spec st) as (evs & -> & _). Qed.

(** The file a run leaves, from its accumulator. *)
Lemma main_output_from_results input (output : option (dataframe number)) results :
  all_results (main input output).1 = results ->
  output_file (main input output).1 = spec_merge output results.
Proof. intros <-. apply main_spec. Qed.


End WeatherFacts.

Section SplitRuns.

Import Weather.

Context {number : Type}.
Variable weather_api : params number -> api_result number.
Variables start_date end_date : string.
Variable delay : Z.

Local Abbreviation request_params := (request_params start_date end_date).
Local Abbreviation main := (main weather_api start_date end_date delay).

(** What a run appends when every lookup of its work list succeeds: the
    work lists of one and of two rows. *)
Lemma run_one_row (api : params number -> api_result number)
    (output : option (dataframe number)) input row series :
  (0 <= delay < sleep_limit)%Z ->
  unprocessed (processed_cities output) input = [row] ->
  api (request_params row) = Hourly series ->
  output_file (Weather.main api start_date end_date delay input output).1
    = Some (table output ++ hourly_frame (city row) series).
Proof.
  intros Hd Hdata Hapi.
  destruct (initial_state_spec output) as (_ & Hres0 & _ & _).
  rewrite (main_output_from_results _ _ _ _ _ _ [hourly_frame (city row) series]);
    [by simpl; rewrite app_nil_r|].
  unfold Weather.main. rewrite Hdata.
  rewrite (for_loop_cons_ok _ _ _ _ _ _ _ _ Hd Hapi).
  rewrite for_loop_nil_results. simpl. by rewrite Hres0.
Qed.

Lemma run_two_rows (api : params number -> api_result number)
    (output : option (dataframe number)) input row1 row2 series1 series2 :
  (0 <= delay < sleep_limit)%Z ->
  unprocessed (processed_cities output) input = [row1; row2] ->
  api (request_params row1) = Hourly series1 ->
  api (request_params row2) = Hourly series2 ->
  output_file (Weather.main api start_date end_date delay input output).1
    = Some (table output ++ hourly_frame (city row1) series1
                         ++ hourly_frame (city row2) series2).
Proof.
  intros Hd Hdata Hapi1 Hapi2.
  destruct (initial_state_spec output) as (_ & Hres0 & _ & _).
  rewrite (main_output_from_results _ _ _ _ _ _
             [hourly_frame (city row1) series1; hourly_frame (city row2) series2]);
    [by simpl; rewrite app_nil_r|].
  unfold Weather.main. rewrite Hdata.
  rewrite (for_loop_cons_ok _ _ _ _ _ _ _ _ Hd Hapi1).
  rewrite (for_loop_cons_ok _ _ _ _ _ _ _ _ Hd Hapi2).
  rewrite for_loop_nil_results. simpl. by rewrite Hres0.
Qed.

(** A run in which the first lookup succeeds and the second raises. *)
Lemma run_interrupted (api : params number -> api_result number)
    (output : option (dataframe number)) input row1 row2 rest series1 e :
  (0 <= delay < sleep_limit)%Z ->
  unprocessed (processed_cities output) input = row1 :: row2 :: rest ->
  api (request_params row1) = Hourly series1 ->
  api (request_params row2) = Raised e ->
  output_file (Weather.main api start_date end_date delay input output).1
    = Some (table output ++ hourly_frame (city row1) series1).
Proof.
  intros Hd Hdata Hapi1 Hapi2.
  destruct (initial_state_spec output) as (_ & Hres0 & _ & _).
  rewrite (main_output_from_results _ _ _ _ _ _ [hourly_frame (city row1) series1]);
    [by simpl; rewrite app_nil_r|].
  unfold Weather.main. rewrite Hdata.
  rewrite (for_loop_cons_ok _ _ _ _ _ _ _ _ Hd Hapi1).
  rewrite (for_loop_cons_raise _ _ _ _ _ _ _ _ Hapi2).
  match goal with
  | |- context [except_block row2 e ?s] =>
      destruct (except_block_spec row2 e s) as (evs & -> & _)
  end; simpl.
  by rewrite Hres0.
Qed.


End SplitRuns.

(* ===================================================================== *)
(** ** Facts about the geocoding pipeline *)
(* ===================================================================== *)

Section GeocodeFacts.

Import Geocode.

Context {number : Type}.
Variable geolocator_geocode : nat -> string -> geocode_result number.
Variable stack_overflow : exn.

Local Abbreviation get_coordinates := (get_coordinates geolocator_geocode stack_overflow).
Local Abbreviation apply_rows := (apply_rows geolocator_geocode stack_overflow).
Local Abbreviation progress_apply := (progress_apply geolocator_geocode stack_overflow).

Implicit Types (st : state number) (v : coords number)
         (r : exn + coords number).

(** A hit: the cached pair, the state untouched. *)
Lemma get_coordinates_cached stack city region st v :
  cache st !! cache_key city region = Some v ->
  get_coordinates stack city region st = (inr v, st).
Proof. intros Hhit. destruct stack; simpl; by rewrite Hhit. Qed.

(** A miss, [n] timeouts and then an answer, with the stack holding more
    than [n] activations: the trace is [n] retried requests and the final
    one. *)
Lemma get_coordinates_after_timeouts n stack city region st r :
  cache st !! cache_key city region = None ->
  (forall i, i < n ->
     geolocator_geocode (calls st + i) (geocode_query city region)
       = GeocoderTimedOut) ->
  outcome_of (geolocator_geocode (calls st + n) (geocode_query city region))
    = Some r ->
  n < stack ->
  get_coordinates stack city region st =
    (r, {| cache := cache_after (cache_key city region) r (cache st);
           calls := calls st + S n;
           trace := trace st ++ retries (geocode_query city region) n
                             ++ [Geocode (geocode_query city region)] |}).
Proof.
  revert stack st. induction n as [|n IH]; intros stack st Hmiss Hto Hans Hlt.
  - destruct stack as [|stack]; [lia|]. simpl. rewrite Hmiss.
    rewrite Nat.add_0_r in Hans.
    destruct (geolocator_geocode (calls st) _) as [lat lon| | |e];
      simpl in Hans; simplify_eq; unfold store, called; simpl;
      by rewrite Nat.add_1_r.
  - destruct stack as [|stack]; [lia|]. simpl. rewrite Hmiss.
    pose proof (Hto 0 ltac:(lia)) as Hfirst. rewrite Nat.add_0_r in Hfirst.
    rewrite Hfirst.
    rewrite (IH stack (slept 1 (called (geocode_query city region) st)) Hmiss).
    + simpl. do 2 f_equal.
      * lia.
      * unfold retries. simpl. by rewrite <- !app_assoc.
    + intros i Hi. simpl. replace (S (calls st + i)) with (calls st + S i) by lia.
      apply Hto. lia.
    + simpl. by replace (S (calls st + n)) with (calls st + S n) by lia.
    + lia.
Qed.

(** A miss and as many timeouts as the stack holds activations: the next
    call of the geocoder overflows the stack. *)
Lemma get_coordinates_overflow stack city region st :
  cache st !! cache_key city region = None ->
  (forall i, i < stack ->
     geolocator_geocode (calls st + i) (geocode_query city region)
       = GeocoderTimedOut) ->
  get_coordinates stack city region st =
    (inl stack_overflow,
     {| cache := cache st;
        calls := calls st + S stack;
        trace := trace st ++ retries (geocode_query city region) stack
                          ++ [Geocode (geocode_query city region)] |}).
Proof.
  revert st. induction stack as [|stack IH]; intros st Hmiss Hto.
  - simpl. rewrite Hmiss. unfold called. by rewrite Nat.add_1_r.
  - simpl. rewrite Hmiss.
    pose proof (Hto 0 ltac:(lia)) as Hfirst. rewrite Nat.add_0_r in Hfirst.
    rewrite Hfirst.
    rewrite (IH (slept 1 (called (geocode_query city region) st)) Hmiss).
    + simpl. do 2 f_equal.
      * lia.
      * unfold retries. simpl. by rewrite <- !app_assoc.
    + intros i Hi. simpl. replace (S (calls st + i)) with (calls st + S i) by lia.
      apply Hto. lia.
Qed.

(** Conversely, a lookup was a hit, or a miss followed by timeouts and
    either one answer or the overflow of the stack. *)
Lemma get_coordinates_inv stack city region st r st1 :
  get_coordinates stack city region st = (r, st1) ->
  match cache st !! cache_key city region with
  | Some cached => r = inr cached /\ st1 = st
  | None =>
      exists n,
        (forall i, i < n ->
           geolocator_geocode (calls st + i) (geocode_query city region)
             = GeocoderTimedOut) /\
        ((n < stack /\
          outcome_of (geolocator_geocode (calls st + n) (geocode_query city region))
            = Some r) \/
         (n = stack /\
          r = inl stack_overflow)) /\
        st1 = {| cache := cache_after (cache_key city region) r (cache st);
                 calls := calls st + S n;
                 trace := trace st ++ retries (geocode_query city region) n
                                   ++ [Geocode (geocode_query city region)] |}
  end.
Proof.
  revert st. induction stack as [|stack IH]; intros st.
  - simpl. destruct (cache st !! cache_key city region) as [cached|] eqn:Hmiss.
    { by intros [= <- <-]. }
    intros [= <- <-]. exists 0. split; [intros i Hi; lia|].
    split; [by right|]. unfold called; simpl. by rewrite Nat.add_1_r.
  - simpl. destruct (cache st !! cache_key city region) as [cached|] eqn:Hmiss.
    { by intros [= <- <-]. }
    destruct (geolocator_geocode (calls st) (geocode_query city region))
      as [lat lon| | |e] eqn:Hfirst.
    1,2,4: intros [= <- <-]; exists 0; rewrite Nat.add_0_r, Hfirst;
      (split; [intros i Hi; lia|]);
      (split; [left; split; [lia|done]|]);
      unfold store, called; simpl; by rewrite Nat.add_1_r.
    intros Hrec. apply IH in Hrec. simpl in Hrec. rewrite Hmiss in Hrec.
    destruct Hrec as (n & Hto & Hans & ->). exists (S n).
    split; [|split].
    + intros [|i] Hi; [by rewrite Nat.add_0_r|].
      replace (calls st + S i) with (S (calls st + i)) by lia. apply Hto. lia.
    + replace (calls st + S n) with (S (calls st + n)) by lia.
      destruct Hans as [[Hlt Hans]|[-> ->]]; [left|right]; split; try done; lia.
    + f_equal; [lia|]. unfold retries. simpl. by rewrite <- !app_assoc.
Qed.

(** A lookup that returns a pair got it from the dictionary or from an
    answer of the geocoder. *)
Lemma get_coordinates_inv_pair stack city region st v st1 :
  get_coordinates stack city region st = (inr v, st1) ->
  match cache st !! cache_key city region with
  | Some cached => v = cached /\ st1 = st
  | None =>
      exists n,
        n < stack /\
        (forall i, i < n ->
           geolocator_geocode (calls st + i) (geocode_query city region)
             = GeocoderTimedOut) /\
        outcome_of (geolocator_geocode (calls st + n) (geocode_query city region))
          = Some (inr v) /\
        st1 = {| cache := <[cache_key city region := v]> (cache st);
                 calls := calls st + S n;
                 trace := trace st ++ retries (geocode_query city region) n
                                   ++ [Geocode (geocode_query city region)] |}
  end.
Proof.
  intros Hget. apply get_coordinates_inv in Hget.
  destruct (cache st !! cache_key city region) as [cached|].
  - destruct Hget as [[= ->] ->]. done.
  - destruct Hget as (n & Hto & [[Hlt Hans]|[_ ?]] & ->); [|done].
    by exists n.
Qed.

(** A lookup never removes or changes an entry of the dictionary. *)
Lemma get_coordinates_keeps stack city region st r st1 k v :
  get_coordinates stack city region st = (r, st1) ->
  cache st !! k = Some v ->
  cache st1 !! k = Some v.
Proof.
  intros Hget Hk. apply get_coordinates_inv in Hget.
  destruct (cache st !! cache_key city region) as [cached|] eqn:Hkey.
  - by destruct Hget as [_ ->].
  - destruct Hget as (n & _ & _ & ->). simpl.
    destruct r as [e|w]; simpl; [done|].
    rewrite lookup_insert_ne; [done|]. intros <-. congruence.
Qed.

(** A lookup that returns a pair leaves it in the dictionary. *)
Lemma get_coordinates_stores stack city region st v st1 :
  get_coordinates stack city region st = (inr v, st1) ->
  cache st1 !! cache_key city region = Some v.
Proof.
  intros Hget. apply get_coordinates_inv in Hget.
  destruct (cache st !! cache_key city region) as [cached|] eqn:Hkey.
  - destruct Hget as [[= ->] ->]. done.
  - destruct Hget as (n & _ & _ & ->). simpl. apply lookup_insert_eq.
Qed.

Lemma apply_rows_keeps stack df st res st1 k v :
  apply_rows stack df st = (res, st1) ->
  cache st !! k = Some v ->
  cache st1 !! k = Some v.
Proof.
  revert st res st1. induction df as [|row df IH]; intros st res st1; simpl.
  - by intros [= <- <-].
  - unfold fill_missing_coords.
    destruct (get_coordinates stack (city row) (region row) st)
      as [[e|[lat lon]] st'] eqn:Hget.
    + intros [= <- <-]. by eapply get_coordinates_keeps.
    + destruct (apply_rows stack df st') as [[e|rs] st''] eqn:Hrest;
        intros [= <- <-] Hk;
        (eapply IH; [exact Hrest|]); by eapply get_coordinates_keeps.
Qed.

Lemma progress_apply_keeps stack df st res st1 k v :
  progress_apply stack df st = (res, st1) ->
  cache st !! k = Some v ->
  cache st1 !! k = Some v.
Proof.
  destruct df as [|row df].
  - unfold Geocode.progress_apply.
    destruct (get_coordinates stack nan nan st) as [r st'] eqn:Hget.
    intros [= <- <-]. by eapply get_coordinates_keeps.
  - apply apply_rows_keeps.
Qed.

(** A traversal that completes: one output row per source row, in order,
    each with the pair the dictionary holds for its key at the end. *)
Lemma apply_rows_completed stack df st rows st1 :
  apply_rows stack df st = (inr rows, st1) ->
  rows = from_cache (cache st1) <$> df /\
  (forall row, row ∈ df ->
     is_Some (cache st1 !! cache_key (city row) (region row))).
Proof.
  revert st rows st1. induction df as [|row df IH]; intros st rows st1; simpl.
  - intros [= <- <-]. split; [done|]. by intros row ?%elem_of_nil.
  - unfold fill_missing_coords.
    destruct (get_coordinates stack (city row) (region row) st)
      as [[e|[lat lon]] st'] eqn:Hget; [done|].
    destruct (apply_rows stack df st') as [[e|rs] st''] eqn:Hrest; [done|].
    intros [= <- <-].
    pose proof (get_coordinates_stores _ _ _ _ _ _ Hget) as Hstored.
    pose proof (apply_rows_keeps _ _ _ _ _ _ _ Hrest Hstored) as Hkept.
    destruct (IH _ _ _ Hrest) as [-> Hall]. split.
    + f_equal. unfold from_cache. by rewrite Hkept.
    + intros row' [->|Hin]%elem_of_cons; [by eexists|by apply Hall].
Qed.

(** Line 125 completes on a frame with rows only. *)
Lemma progress_apply_completed stack df st rows st1 :
  progress_apply stack df st = (inr rows, st1) ->
  df <> [] /\ apply_rows stack df st = (inr rows, st1).
Proof.
  destruct df as [|row df]; [|done].
  unfold Geocode.progress_apply. by destruct (get_coordinates stack nan nan st).
Qed.

(** With every key in the dictionary the traversal calls nothing and
    changes nothing. *)
Lemma apply_rows_all_cached stack df st :
  (forall row, row ∈ df ->
     is_Some (cache st !! cache_key (city row) (region row))) ->
  apply_rows stack df st = (inr (from_cache (cache st) <$> df), st).
Proof.
  induction df as [|row df IH]; intros Hall; [done|].
  cbn [Geocode.apply_rows]. unfold fill_missing_coords.
  destruct (Hall row) as [[lat lon] Hhit]; [by left|].
  rewrite (get_coordinates_cached _ _ _ _ _ Hhit).
  rewrite IH by (intros r Hr; apply Hall; by right).
  rewrite fmap_cons. do 2 f_equal. unfold from_cache. by rewrite Hhit.
Qed.

(** C3.  A lookup that misses the cache repeats the identical request
    after a one-second sleep while the request times out, and not more
    often than the interpreter's stack holds activations of the function:
    every lookup makes at most [stack + 1] requests.  If the first [n]
    attempts time out, with [n] less than [stack], and the next one does
    not, the lookup leaves with the outcome of that attempt after [n]
    times request and sleep and the request.  If [stack] attempts time
    out, the stack gives out in the next request, which raises
    [stack_overflow] ([RecursionError] in CPython): the lookup ends in
    that failure, after [stack] times request and sleep and the request,
    and has stored nothing. *)
Theorem timeout_retries_are_bounded stack city region st :
  cache st !! cache_key city region = None ->
  let query := geocode_query city region in
  let lookup := get_coordinates stack city region st in
  (exists n,
     n <= stack /\
     trace lookup.2 = trace st ++ retries query n ++ [Geocode query]) /\
  (forall n r,
     n < stack ->
     (forall i, i < n ->
        geolocator_geocode (calls st + i) query = GeocoderTimedOut) ->
     outcome_of (geolocator_geocode (calls st + n) query) = Some r ->
     lookup.1 = r /\
     trace lookup.2 = trace st ++ retries query n ++ [Geocode query]) /\
  ((forall i, i < stack ->
      geolocator_geocode (calls st + i) query = GeocoderTimedOut) ->
   lookup.1 = inl stack_overflow /\
   cache lookup.2 = cache st /\
   trace lookup.2 = trace st ++ retries query stack ++ [Geocode query]).
Proof.
  intros Hmiss query lookup. split; [|split].
  - destruct lookup as [r st1] eqn:Hget. subst lookup.
    apply get_coordinates_inv in Hget. rewrite Hmiss in Hget.
    destruct Hget as (n & _ & Hhow & ->). exists n. split; [|done].
    destruct Hhow as [[Hlt _]|[-> _]]; lia.
  - intros n r Hlt Hto Hans. subst lookup.
    by rewrite (get_coordinates_after_timeouts n stack city region st r).
  - intros Hto. subst lookup.
    by rewrite (get_coordinates_overflow stack city region st).
Qed.

End GeocodeFacts.

Section GeocodeRuns.

Import Geocode.

Context {number : Type}.

(** A run of step 2: completed, it had a city list with rows, has replaced
    the output table by one row per row of that list and saved the
    dictionary; left by an exception, it has written nothing. *)
Lemma fetch_and_geocode_russian_cities_ends
    (geocoder : nat -> string -> geocode_result number) overflow stack df
    (fs fs' : files number) ending tr :
  fetch_and_geocode_russian_cities geocoder overflow stack df fs
    = (fs', ending, tr) ->
  match ending with
  | Completed =>
      exists rows saved,
        fs' = {| output_file := Some rows; cache_file := Some saved |} /\
        rows = from_cache saved <$> df /\
        source <$> rows = df /\
        (forall row, row ∈ df ->
           is_Some (saved !! cache_key (city row) (region row)))
  | Uncaught _ => fs' = fs
  end.
Proof.
  unfold fetch_and_geocode_russian_cities.
  destruct (progress_apply geocoder overflow stack df (load_cache fs))
    as [[e|rows] st] eqn:Hrun.
  - by intros [= <- <- <-].
  - intros [= <- <- <-].
    apply progress_apply_completed in Hrun as [_ Hrun].
    destruct (apply_rows_completed _ _ _ _ _ _ _ Hrun) as [-> Hall].
    exists (from_cache (cache st) <$> df), (cache st).
    repeat split; try done.
    rewrite <- list_fmap_compose. clear. induction df as [|row df IH]; [done|].
    simpl. by f_equal.
Qed.

(** A run that completes had a city list with rows. *)
Lemma completed_run_has_rows
    (geocoder : nat -> string -> geocode_result number) overflow stack df
    (fs fs' : files number) tr :
  fetch_and_geocode_russian_cities geocoder overflow stack df fs
    = (fs', Completed, tr) ->
  df <> [].
Proof.
  unfold fetch_and_geocode_russian_cities.
  destruct (progress_apply geocoder overflow stack df (load_cache fs))
    as [[e|rows] st] eqn:Hrun; [done|].
  intros _. by apply progress_apply_completed in Hrun as [Hne _].
Qed.

(** After a completed run, a second run over the same city list calls the
    geocoder not once, whatever the geocoder would answer and whatever the
    stack holds, and rewrites both files with what they hold. *)
Lemma rerun_makes_no_call
    (geocoder1 geocoder2 : nat -> string -> geocode_result number)
    overflow1 overflow2 stack1 stack2 df (fs fs1 : files number) tr1 :
  fetch_and_geocode_russian_cities geocoder1 overflow1 stack1 df fs
    = (fs1, Completed, tr1) ->
  fetch_and_geocode_russian_cities geocoder2 overflow2 stack2 df fs1
    = (fs1, Completed, []).
Proof.
  intros Hrun1.
  pose proof (completed_run_has_rows _ _ _ _ _ _ _ Hrun1) as Hne.
  destruct (fetch_and_geocode_russian_cities_ends _ _ _ _ _ _ _ _ Hrun1)
    as (rows & saved & -> & -> & _ & Hall).
  unfold fetch_and_geocode_russian_cities, load_cache, progress_apply. simpl.
  destruct df as [|row df]; [done|].
  by rewrite apply_rows_all_cached.
Qed.

Lemma geocodes_retries query n : geocodes (retries query n) = replicate n query.
Proof.
  induction n as [|n IH]; [done|]. unfold retries in *. simpl. by f_equal.
Qed.

(** C4, as the code has it.  A lookup that returns a pair has it under its
    key in the dictionary.  From then on every lookup of the key, from any
    state of the dictionary that holds the entry and whatever the geocoder
    would answer, returns the stored pair and leaves the state as it is: no
    call.  Every traversal keeps the entry.  The lookup itself left the
    state untouched if the key was in the dictionary; otherwise it called
    the geocoder once for every attempt that timed out and once more, and
    stored the answer of that last call: the coordinates, or the pair
    [(None, None)] when the geocoder found nothing.  Across runs: a run
    that completes saves the dictionary, and a following run over the same
    city list calls the geocoder not once; a run left by an exception
    saves nothing. *)
Theorem lookup_uses_cache
    (geocoder : nat -> string -> geocode_result number) overflow
    stack city region (st : state number) (v : coords number) st1 :
  get_coordinates geocoder overflow stack city region st = (inr v, st1) ->
  cache st1 !! cache_key city region = Some v /\
  (forall (geocoder2 : nat -> string -> geocode_result number) overflow2
          stack2 st2,
     cache st2 !! cache_key city region = Some v ->
     get_coordinates geocoder2 overflow2 stack2 city region st2 = (inr v, st2)) /\
  (forall (geocoder2 : nat -> string -> geocode_result number) overflow2
          stack2 df res st2,
     progress_apply geocoder2 overflow2 stack2 df st1 = (res, st2) ->
     cache st2 !! cache_key city region = Some v) /\
  match cache st !! cache_key city region with
  | Some cached => v = cached /\ st1 = st
  | None =>
      exists n,
        (forall i, i < n ->
           geocoder (calls st + i) (geocode_query city region)
             = GeocoderTimedOut) /\
        outcome_of (geocoder (calls st + n) (geocode_query city region))
          = Some (inr v) /\
        cache st1 = <[cache_key city region := v]> (cache st) /\
        geocodes (trace st1)
          = geocodes (trace st) ++ replicate (S n) (geocode_query city region)
  end /\
  (forall (geocoder1 geocoder2 : nat -> string -> geocode_result number)
          overflow1 overflow2 stack1 stack2 df (fs fs1 : files number) tr1,
     fetch_and_geocode_russian_cities geocoder1 overflow1 stack1 df fs
       = (fs1, Completed, tr1) ->
     fetch_and_geocode_russian_cities geocoder2 overflow2 stack2 df fs1
       = (fs1, Completed, [])) /\
  (forall (geocoder1 : nat -> string -> geocode_result number) overflow1
          stack1 df (fs fs1 : files number) e tr1,
     fetch_and_geocode_russian_cities geocoder1 overflow1 stack1 df fs
       = (fs1, Uncaught e, tr1) ->
     fs1 = fs).
Proof.
  intros Hget.
  pose proof (get_coordinates_stores _ _ _ _ _ _ _ _ Hget) as Hstored.
  split; [exact Hstored|]. split.
  { intros geocoder2 overflow2 stack2 st2 Hhit. by apply get_coordinates_cached. }
  split.
  { intros geocoder2 overflow2 stack2 df res st2 Hrun.
    by eapply progress_apply_keeps. }
  split.
  { apply get_coordinates_inv_pair in Hget.
    destruct (cache st !! cache_key city region) as [cached|]; [done|].
    destruct Hget as (n & _ & Hto & Hans & ->). exists n. simpl.
    repeat split; try done.
    unfold geocodes. rewrite !omap_app. fold (geocodes (trace st)).
    fold (geocodes (retries (geocode_query city region) n)).
    rewrite geocodes_retries. simpl. by rewrite <- replicate_S_end. }
  split.
  { intros geocoder1 geocoder2 overflow1 overflow2 stack1 stack2 df fs fs1 tr1
           Hrun.
    by eapply rerun_makes_no_call. }
  intros geocoder1 overflow1 stack1 df fs fs1 e tr1 Hrun.
  by apply fetch_and_geocode_russian_cities_ends in Hrun.
Qed.

End GeocodeRuns.

(* ===================================================================== *)
(** ** The output tables of both pipelines across runs *)
(* ===================================================================== *)

Section OutputTables.

Context {number : Type}.

(** C1, as the code has it.  Weather pipeline: whichever way the loop is
    left, the table on disk before the run is a prefix of the table on disk
    after it, so every row saved before is still there.  Geocoding
    pipeline: a run that completes replaces the output table by one row
    per row of the current city list, in the order of that list, whatever
    the table held before; a run left by an exception changes neither the
    output table nor the cache file. *)
Theorem output_tables_across_runs
    (weather_api : Weather.params number -> Weather.api_result number)
    (start_date end_date : string) (delay : Z)
    (input : list (Weather.source_row number))
    (output : option (Weather.dataframe number))
    (geocoder : nat -> string -> Geocode.geocode_result number) overflow
    stack df (fs fs' : Geocode.files number) ending tr :
  Geocode.fetch_and_geocode_russian_cities geocoder overflow stack df fs
    = (fs', ending, tr) ->
  let after :=
    Weather.output_file
      (Weather.main weather_api start_date end_date delay input output).1 in
  Weather.table output `prefix_of` Weather.table after /\
  (forall row, row ∈ Weather.table output -> row ∈ Weather.table after) /\
  match ending with
  | Geocode.Completed =>
      exists rows,
        Geocode.output_file fs' = Some rows /\ Geocode.source <$> rows = df
  | Geocode.Uncaught _ => fs' = fs
  end.
Proof.
  intros Hrun after.
  pose proof (main_appends weather_api start_date end_date delay input output)
    as Hprefix.
  split; [exact Hprefix|]. split.
  - intros row Hrow. destruct Hprefix as [extra Hextra]. fold after in Hextra.
    rewrite Hextra. apply elem_of_app. by left.
  - apply fetch_and_geocode_russian_cities_ends in Hrun. destruct ending; [|done].
    destruct Hrun as (rows & saved & -> & _ & Hsrc & _). by exists rows.
Qed.

End OutputTables.

(* ===================================================================== *)
(** ** The theorems on concrete runs *)
(* ===================================================================== *)

Section Runs.

Import Examples.

Ltac by_computation := apply (bool_decide_unpack _); vm_compute; exact I.

(** Moscow first, and the archive fails on it: nothing is accumulated, no
    file appears. *)
Lemma empty_accumulator_no_write_witness :
  Weather.all_results (run archive_without_moscow [moscow; kazan] None).1 = [] /\
  Weather.output_file (run archive_without_moscow [moscow; kazan] None).1 = None /\
  Weather.writes (Weather.trace (run archive_without_moscow [moscow; kazan] None).1)
    = [].
Proof.
  split; [vm_compute; reflexivity|].
  apply (empty_accumulator_no_write archive_without_moscow
           "2023-01-01" "2023-01-02" 30%Z [moscow; kazan] None).
  vm_compute. reflexivity.
Defined.

(** A second run after a run that fetched both cities. *)
Lemma rerun_without_new_cities_witness :
  let after1 := Weather.output_file (run archive_up [kazan; moscow] None).1 in
  (forall row, row ∈ [kazan; moscow] ->
     Weather.city row ∈ Weather.processed_cities after1) /\
  Weather.unprocessed (Weather.processed_cities after1) [kazan; moscow] = [] /\
  (run archive_without_moscow [kazan; moscow] after1).2 = Weather.Exhausted /\
  Weather.requests
    (Weather.trace (run archive_without_moscow [kazan; moscow] after1).1) = [] /\
  Weather.writes
    (Weather.trace (run archive_without_moscow [kazan; moscow] after1).1) = [] /\
  Weather.output_file (run archive_without_moscow [kazan; moscow] after1).1
    = after1.
Proof.
  intros after1.
  assert (forall row, row ∈ [kazan; moscow] ->
            Weather.city row ∈ Weather.processed_cities after1) as Hall.
  { intros row [->|Hrow]%elem_of_cons; [by_computation|].
    apply list_elem_of_singleton in Hrow as ->. by_computation. }
  split; [exact Hall|].
  exact (rerun_without_new_cities archive_without_moscow
           "2023-01-01" "2023-01-02" 30%Z
           archive_up "2023-01-01" "2023-01-02" 30%Z
           [kazan; moscow] None Hall).
Defined.

(** Kirovsk is in the table: both cities of that name are dropped, Kazan
    is kept and requested. *)
Lemma filter_keys_on_city_name_witness :
  let input := [kirovsk_leningrad; kirovsk_murmansk; kazan] in
  let work :=
    Weather.unprocessed (Weather.processed_cities (Some kirovsk_saved)) input in
  work = [kazan] /\
  (kirovsk_leningrad ∈ work <-> kirovsk_murmansk ∈ work) /\
  (forall row, row ∈ work <->
     row ∈ input /\
     Weather.city row ∉ Weather.row_city <$> Weather.table (Some kirovsk_saved)) /\
  (forall p,
     p ∈ Weather.requests
           (Weather.trace (run archive_up input (Some kirovsk_saved)).1) ->
     exists row, row ∈ work /\ p = request_for row).
Proof.
  intros input work.
  pose proof (filter_keys_on_city_name archive_up "2023-01-01" "2023-01-02" 30%Z
                input (Some kirovsk_saved)) as (_ & Hiff & Hsame & Hreq).
  split; [vm_compute; reflexivity|]. split.
  - apply Hsame; [by left|right; by left|reflexivity].
  - split; [exact Hiff|exact Hreq].
Defined.







(** One timeout, then the coordinates of Kirovsk; and a geocoder that is
    down, with a stack that holds three activations. *)
Lemma timeout_retries_are_bounded_witness :
  let query := Geocode.geocode_query "Kirovsk" "Murmansk Oblast" in
  let slow :=
    Geocode.get_coordinates slow_geocoder recursion_error 3 "Kirovsk" "Murmansk Oblast"
      (Geocode.load_cache no_files) in
  let dead :=
    Geocode.get_coordinates dead_geocoder recursion_error 3 "Kirovsk" "Murmansk Oblast"
      (Geocode.load_cache no_files) in
  Geocode.cache (Geocode.load_cache no_files)
    !! Geocode.cache_key "Kirovsk" "Murmansk Oblast" = None /\
  (slow.1 = inr kirovsk_coords /\
   Geocode.trace slow.2
     = [] ++ Geocode.retries query 1 ++ [Geocode.Geocode query]) /\
  (dead.1 = inl recursion_error /\
   Geocode.cache dead.2 = Geocode.cache (Geocode.load_cache no_files) /\
   Geocode.trace dead.2
     = [] ++ Geocode.retries query 3 ++ [Geocode.Geocode query]).
Proof.
  intros query slow dead.
  assert (Geocode.cache (Geocode.load_cache no_files)
            !! Geocode.cache_key "Kirovsk" "Murmansk Oblast" = None) as Hmiss
    by (vm_compute; reflexivity).
  split; [exact Hmiss|]. split.
  - apply (proj1 (proj2 (timeout_retries_are_bounded slow_geocoder recursion_error 3
                           "Kirovsk" "Murmansk Oblast"
                           (Geocode.load_cache no_files) Hmiss))
             1 (inr kirovsk_coords)).
    + lia.
    + intros i Hi. replace i with 0 by lia. reflexivity.
    + reflexivity.
  - apply (proj2 (proj2 (timeout_retries_are_bounded dead_geocoder recursion_error 3
                           "Kirovsk" "Murmansk Oblast"
                           (Geocode.load_cache no_files) Hmiss))).
    intros i Hi. reflexivity.
Defined.

(** The first lookup of Kirovsk, and what follows from it. *)
Lemma lookup_uses_cache_witness :
  Geocode.get_coordinates slow_geocoder recursion_error 2 "Kirovsk" "Murmansk Oblast"
    (Geocode.load_cache no_files) = (inr kirovsk_coords, kirovsk_looked_up) /\
  Geocode.cache kirovsk_looked_up
    !! Geocode.cache_key "Kirovsk" "Murmansk Oblast" = Some kirovsk_coords /\
  (forall (geocoder2 : nat -> string -> Geocode.geocode_result Z) overflow2
          stack2 st2,
     Geocode.cache st2 !! Geocode.cache_key "Kirovsk" "Murmansk Oblast"
       = Some kirovsk_coords ->
     Geocode.get_coordinates geocoder2 overflow2 stack2
       "Kirovsk" "Murmansk Oblast" st2
       = (inr kirovsk_coords, st2)).
Proof.
  assert (Geocode.get_coordinates slow_geocoder recursion_error 2 "Kirovsk" "Murmansk Oblast"
            (Geocode.load_cache no_files)
          = (inr kirovsk_coords, kirovsk_looked_up)) as Hfirst
    by (vm_compute; reflexivity).
  split; [exact Hfirst|].
  pose proof (lookup_uses_cache slow_geocoder recursion_error 2 "Kirovsk" "Murmansk Oblast"
                (Geocode.load_cache no_files) kirovsk_coords kirovsk_looked_up
                Hfirst) as (Hstored & Hagain & _).
  split; [exact Hstored|exact Hagain].
Defined.

(** C4 fails as stated, within a run and across runs.  The first attempt
    for Kirovsk times out, so the first lookup calls the geocoder twice
    before it returns, and the second lookup calls nothing: two lookups,
    two calls.  And a run over Kirovsk and Apatity in which the geocoder
    fails on Apatity is left by the exception before the dictionary is
    saved: the next run calls the geocoder for Kirovsk again. *)
Lemma lookups_can_cost_two_calls :
  (Geocode.get_coordinates slow_geocoder recursion_error 2 "Kirovsk" "Murmansk Oblast"
     (Geocode.load_cache no_files) = (inr kirovsk_coords, kirovsk_looked_up) /\
   Geocode.get_coordinates slow_geocoder recursion_error 2 "Kirovsk" "Murmansk Oblast"
     kirovsk_looked_up = (inr kirovsk_coords, kirovsk_looked_up) /\
   Geocode.geocodes (Geocode.trace kirovsk_looked_up)
     = [ "Kirovsk, Murmansk Oblast, Russia"; "Kirovsk, Murmansk Oblast, Russia" ] /\
   ~ length (Geocode.geocodes (Geocode.trace kirovsk_looked_up)) <= 1) /\
  (exists fs1 tr1 fs2 tr2,
     Geocode.fetch_and_geocode_russian_cities failing_geocoder recursion_error 1
       [kirovsk; apatity] no_files
       = (fs1,
          Geocode.Uncaught (GeocoderServiceError "service unavailable"),
          tr1) /\
     Geocode.fetch_and_geocode_russian_cities failing_geocoder recursion_error 1
       [kirovsk; apatity] fs1
       = (fs2,
          Geocode.Uncaught (GeocoderServiceError "service unavailable"),
          tr2) /\
     "Kirovsk, Murmansk Oblast, Russia" ∈ Geocode.geocodes tr1 /\
     "Kirovsk, Murmansk Oblast, Russia" ∈ Geocode.geocodes tr2).
Proof.
  split.
  - split; [vm_compute; reflexivity|]. split; [vm_compute; reflexivity|].
    split; [reflexivity|]. simpl. lia.
  - exists no_files,
           [ Geocode.Geocode "Kirovsk, Murmansk Oblast, Russia";
             Geocode.Geocode "Apatity, Murmansk Oblast, Russia" ],
           no_files,
           [ Geocode.Geocode "Kirovsk, Murmansk Oblast, Russia";
             Geocode.Geocode "Apatity, Murmansk Oblast, Russia" ].
    split; [vm_compute; reflexivity|]. split; [vm_compute; reflexivity|].
    split; simpl; by left.
Qed.

(** A first run of both pipelines. *)
Lemma output_tables_across_runs_witness :
  Geocode.fetch_and_geocode_russian_cities slow_geocoder recursion_error 2 [kirovsk] no_files
    = (kirovsk_files, Geocode.Completed, Geocode.trace kirovsk_looked_up) /\
  Weather.table (Some kirovsk_saved)
    `prefix_of` Weather.table
                  (Weather.output_file
                     (run archive_without_moscow [kazan; moscow]
                        (Some kirovsk_saved)).1) /\
  exists rows,
    Geocode.output_file kirovsk_files = Some rows /\
    Geocode.source <$> rows = [kirovsk].
Proof.
  assert (Geocode.fetch_and_geocode_russian_cities slow_geocoder recursion_error 2 [kirovsk] no_files
          = (kirovsk_files, Geocode.Completed,
             Geocode.trace kirovsk_looked_up)) as Hrun
    by (vm_compute; reflexivity).
  split; [exact Hrun|].
  pose proof (output_tables_across_runs archive_without_moscow
                "2023-01-01" "2023-01-02" 30%Z [kazan; moscow]
                (Some kirovsk_saved)
                slow_geocoder recursion_error 2 [kirovsk] no_files kirovsk_files
                Geocode.Completed (Geocode.trace kirovsk_looked_up) Hrun)
    as (Hprefix & _ & Hrows).
  split; [exact Hprefix|exact Hrows].
Defined.

(** C1 fails as stated: the output table of the geocoding pipeline holds
    Kirovsk and Apatity from an earlier run; a run on a city list that has
    Kirovsk only completes, here without a single geocoder call, and
    leaves the table without the row of Apatity. *)
Lemma geocoding_run_drops_saved_row :
  Geocode.fetch_and_geocode_russian_cities dead_geocoder recursion_error 1 [kirovsk] earlier_files
    = ({| Geocode.output_file := Some [kirovsk_geocoded];
          Geocode.cache_file := Geocode.cache_file earlier_files |},
       Geocode.Completed, []) /\
  apatity_geocoded ∈ default [] (Geocode.output_file earlier_files) /\
  apatity_geocoded ∉ [kirovsk_geocoded].
Proof.
  split; [vm_compute; reflexivity|]. split.
  - simpl. right. by left.
  - intros Hin. apply list_elem_of_singleton in Hin. discriminate.
Qed.

End Runs.

(* ===================================================================== *)
(** ** Whole runs of the weather pipeline *)
(* ===================================================================== *)

Section WeatherBatches.

Import Weather Batch.

Context {number : Type}.
Variable weather_api : params number -> api_result number.
Variables start_date end_date : string.
Variable delay : Z.

Local Abbreviation request_params := (request_params start_date end_date).
Local Abbreviation for_loop := (for_loop weather_api start_date end_date delay).
Local Abbreviation main := (main weather_api start_date end_date delay).
Local Abbreviation succeeds := (succeeds weather_api start_date end_date).
Local Abbreviation frame_of := (frame_of weather_api start_date end_date).
Local Abbreviation yields_rows := (yields_rows weather_api start_date end_date).

Implicit Types (st : state number) (row : source_row number)
         (data : list (source_row number)).

Lemma frame_of_succeeds row series :
  weather_api (request_params row) = Hourly series ->
  frame_of row = hourly_frame (city row) series.
Proof. intros Hapi. unfold Batch.frame_of. by rewrite Hapi. Qed.

(** Whatever the delay, the accumulator at the end of the loop holds the
    frames of an initial stretch of the rows, all of them answered, and the
    requests of the loop are those of that stretch and, when a lookup
    raised, of the row after it. *)
Lemma for_loop_results data st :
  exists done rest,
    data = done ++ rest /\
    Forall succeeds done /\
    all_results (for_loop data st).1 = all_results st ++ (frame_of <$> done).
Proof.
  revert st. induction data as [|row data IH]; intros st.
  - exists [], []. split; [done|]. split; [constructor|].
    rewrite for_loop_nil_results. simpl. by rewrite app_nil_r.
  - destruct (weather_api (request_params row)) as [e|series] eqn:Hapi.
    + rewrite (for_loop_cons_raise _ _ _ _ _ _ _ _ Hapi); simpl.
      destruct (except_block_spec row e (emit (Request (request_params row)) st))
        as (evs & -> & _); simpl.
      exists [], (row :: data). split; [done|]. split; [constructor|].
      simpl. by rewrite app_nil_r.
    + destruct (sleep_error delay) as [e|] eqn:Hsleep.
      * destruct (for_loop_cons_sleep_raises _ _ _ _ row data st series e
                    Hsleep Hapi) as (st' & -> & _ & Hres & _); simpl.
        destruct (except_block_spec row e st') as (evs & -> & _); simpl.
        exists [row], data. split; [done|].
        split; [constructor; [by exists series|constructor]|].
        simpl. by rewrite Hres, (frame_of_succeeds _ _ Hapi).
      * apply sleep_error_accepts in Hsleep as Hd.
        rewrite (for_loop_cons_ok _ _ _ _ _ _ _ _ Hd Hapi).
        match goal with
        | |- context [for_loop data ?s] =>
            destruct (IH s) as (done & rest & -> & Hall & ->)
        end; simpl.
        exists (row :: done), rest. split; [done|].
        split; [constructor; [by exists series|done]|].
        simpl. by rewrite <- app_assoc, (frame_of_succeeds _ _ Hapi).
Qed.

Lemma requests_paced data :
  requests (paced start_date end_date delay data) = request_params <$> data.
Proof.
  induction data as [|row data IH]; [done|]. simpl. by f_equal.
Qed.

Lemma requests_initial_state (output : option (dataframe number)) :
  requests (trace (initial_state output)) = [].
Proof.
  destruct (initial_state_spec output) as (_ & _ & _ & Hp).
  by rewrite requests_pacing, Hp.
Qed.

Lemma for_loop_all_answered data st :
  (0 <= delay < sleep_limit)%Z ->
  Forall succeeds data ->
  (for_loop data st).2 = Exhausted /\
  all_results (for_loop data st).1 = all_results st ++ (frame_of <$> data) /\
  requests (trace (for_loop data st).1)
    = requests (trace st) ++ (request_params <$> data).
Proof.
  intros Hd. revert st. induction data as [|row data IH]; intros st Hall.
  - split; [done|]. rewrite for_loop_nil_results. simpl.
    rewrite !app_nil_r. split; [done|].
    destruct (else_block_spec st) as (evs & -> & Hp & _); simpl.
    by rewrite requests_pacing, pacing_app, Hp, app_nil_r, <- requests_pacing.
  - apply Forall_cons in Hall as [[series Hapi] Hall].
    rewrite (for_loop_cons_ok _ _ _ _ _ _ _ _ Hd Hapi).
    match goal with
    | |- context [for_loop data ?s] => destruct (IH s Hall) as (-> & -> & ->)
    end; simpl.
    split; [done|]. rewrite <- !app_assoc, (frame_of_succeeds _ _ Hapi).
    split; [done|]. unfold requests. by rewrite omap_app, <- app_assoc.
Qed.

Lemma for_loop_first_failure done failed rest st e :
  (0 <= delay < sleep_limit)%Z ->
  Forall succeeds done ->
  weather_api (request_params failed) = Raised e ->
  (for_loop (done ++ failed :: rest) st).2 = Broke (city failed) e /\
  all_results (for_loop (done ++ failed :: rest) st).1
    = all_results st ++ (frame_of <$> done) /\
  requests (trace (for_loop (done ++ failed :: rest) st).1)
    = requests (trace st) ++ (request_params <$> done ++ [failed]).
Proof.
  intros Hd. revert st. induction done as [|row done IH]; intros st Hall Hfail.
  - simpl app. rewrite (for_loop_cons_raise _ _ _ _ _ _ _ _ Hfail); simpl.
    destruct (except_block_spec failed e
                (emit (Request (request_params failed)) st))
      as (evs & -> & Hp & _); simpl.
    rewrite app_nil_r. do 2 (split; [done|]).
    rewrite requests_pacing, !pacing_app, Hp, app_nil_r, <- pacing_app.
    rewrite <- requests_pacing. unfold requests. by rewrite omap_app.
  - apply Forall_cons in Hall as [[series Hapi] Hall]. simpl app.
    rewrite (for_loop_cons_ok _ _ _ _ _ _ _ _ Hd Hapi).
    match goal with
    | |- context [for_loop (done ++ failed :: rest) ?s] =>
        destruct (IH s Hall Hfail) as (-> & -> & ->)
    end; simpl.
    split; [done|]. rewrite <- !app_assoc, (frame_of_succeeds _ _ Hapi).
    split; [done|]. unfold requests. by rewrite omap_app, <- app_assoc.
Qed.




Lemma elem_of_processed_cities (output : option (dataframe number)) c :
  c ∈ processed_cities output <-> c ∈ row_city <$> table output.
Proof.
  destruct output as [existing_df|]; simpl.
  - by rewrite elem_of_list_to_set.
  - split; [by intros ?%elem_of_empty|by intros ?%elem_of_nil].
Qed.

Lemma unprocessed_sublist (before after : gset string) data :
  before ⊆ after ->
  unprocessed after data `sublist_of` unprocessed before data.
Proof.
  intros Hsub. unfold unprocessed.
  induction data as [|row data IH]; [done|].
  destruct (decide (city row ∈ after)) as [Hin|Hnot].
  - rewrite (filter_cons_False (fun r => city r ∉ after)) by (by intros ?).
    destruct (decide (city row ∈ before)) as [Hin'|Hnot'].
    + by rewrite (filter_cons_False (fun r => city r ∉ before)) by (by intros ?).
    + rewrite (filter_cons_True (fun r => city r ∉ before)) by done.
      by apply sublist_cons.
  - rewrite (filter_cons_True (fun r => city r ∉ after)) by done.
    rewrite (filter_cons_True (fun r => city r ∉ before)); [by apply sublist_skip|].
    intros Hin. by apply Hnot, Hsub.
Qed.

Lemma processed_cities_grow input (output : option (dataframe number)) :
  processed_cities output ⊆ processed_cities (output_file (main input output).1).
Proof.
  intros c. rewrite !elem_of_processed_cities.
  destruct (main_appends weather_api start_date end_date delay input output)
    as [extra ->]. rewrite fmap_app.
  intros Hc. apply elem_of_app. by left.
Qed.

(** X4.  Work is never added.  Whatever a run does, the city names of the
    table before it are city names of the table after it, and the work
    list of the next run over any source list is a sublist of the work
    list this run had over it. *)
Theorem work_list_only_shrinks input (output : option (dataframe number))
    (later_input : list (source_row number)) :
  let after := output_file (main input output).1 in
  processed_cities output ⊆ processed_cities after /\
  unprocessed (processed_cities after) later_input
    `sublist_of` unprocessed (processed_cities output) later_input.
Proof.
  intros after. split; [apply processed_cities_grow|].
  apply unprocessed_sublist, processed_cities_grow.
Qed.

Lemma elem_of_concat_frames (r : weather_row number)
    (frames : list (dataframe number)) :
  r ∈ concat frames <-> exists df, df ∈ frames /\ r ∈ df.
Proof.
  induction frames as [|df frames IH]; simpl.
  - split; [by intros ?%elem_of_nil|by intros (df & ?%elem_of_nil & _)].
  - rewrite elem_of_app, IH. split.
    + intros [Hr|(df' & Hdf & Hr)].
      * exists df. split; [by left|done].
      * exists df'. split; [by right|done].
    + intros (df' & [->|Hdf]%elem_of_cons & Hr); [by left|].
      right. by exists df'.
Qed.

(** X5.  Every row that a run adds to the table carries the city name of
    a source row of its work list whose lookup succeeded, and is one of the
    time steps the archive returned for it. *)
Theorem new_rows_come_from_the_work_list input
    (output : option (dataframe number)) r :
  r ∈ table (output_file (main input output).1) ->
  r ∈ table output \/
  exists row,
    row ∈ unprocessed (processed_cities output) input /\
    succeeds row /\ r ∈ frame_of row /\ row_city r = city row.
Proof.
  intros Hr.
  destruct (initial_state_spec output) as (_ & Hres0 & _ & _).
  destruct (for_loop_results (unprocessed (processed_cities output) input)
              (initial_state output)) as (done & rest & Hdata & Hall & Hres).
  rewrite Hres0 in Hres. simpl in Hres.
  rewrite (main_output_from_results _ _ _ _ _ _ _ Hres) in Hr.
  assert (r ∈ table output ++ concat (frame_of <$> done)) as Hr'.
  { unfold table in *.
    destruct (frame_of <$> done); simpl in Hr |- *;
      [by rewrite app_nil_r|done]. }
  apply elem_of_app in Hr' as [Hold|Hnew]; [by left|]. right.
  apply elem_of_concat_frames in Hnew as (df' & Hdf & Hin).
  apply list_elem_of_fmap in Hdf as (row & -> & Hrow).
  exists row. split; [rewrite Hdata; apply elem_of_app; by left|].
  split; [by eapply Forall_forall in Hall|]. split; [done|].
  unfold Batch.frame_of, hourly_frame in Hin.
  by apply list_elem_of_fmap in Hin as (o & -> & _).
Qed.

(** X6.  A run writes the output file at most once, and what it writes is
    what it leaves: either no write and the file as it was, or one write
    of the previous table followed by new rows. *)
Theorem run_writes_at_most_once input (output : option (dataframe number)) :
  (writes (trace (main input output).1) = [] /\
   output_file (main input output).1 = output) \/
  (exists new_rows,
     writes (trace (main input output).1) = [table output ++ new_rows] /\
     output_file (main input output).1 = Some (table output ++ new_rows)).
Proof.
  destruct (main_spec weather_api start_date end_date delay input output)
    as [Hout Hw].
  destruct (all_results (main input output).1) as [|df dfs].
  - left. by split.
  - right. eexists. split; [exact Hw|exact Hout].
Qed.

Lemma yields_rows_succeeds row : yields_rows row -> succeeds row.
Proof. intros (o & series & Hapi). by exists (o :: series). Qed.

(** The accumulator of a run in which every lookup succeeded. *)
Lemma main_results_all_answered input (output : option (dataframe number)) :
  (0 <= delay < sleep_limit)%Z ->
  Forall succeeds (unprocessed (processed_cities output) input) ->
  all_results (main input output).1
    = frame_of <$> unprocessed (processed_cities output) input.
Proof.
  intros Hd Hall. unfold Weather.main.
  destruct (for_loop_all_answered _ (initial_state output) Hd Hall)
    as (_ & -> & _).
  destruct (initial_state_spec output) as (_ & -> & _). done.
Qed.

End WeatherBatches.

Section WeatherNextRun.

Import Weather Batch.

Context {number : Type}.

(** A row of an accumulated frame puts its city name into the table. *)
Lemma city_in_merged (output : option (dataframe number))
    (frames : list (dataframe number)) df (r : weather_row number) :
  df ∈ frames -> r ∈ df ->
  row_city r ∈ processed_cities (spec_merge output frames).
Proof.
  intros Hdf Hr. apply elem_of_processed_cities.
  assert (r ∈ concat frames) as Hin
    by (apply elem_of_concat_frames; by exists df).
  destruct frames as [|df0 frames]; [by apply elem_of_nil in Hdf|].
  unfold spec_merge, table. simpl default. rewrite fmap_app.
  apply elem_of_app. right. by apply list_elem_of_fmap_2.
Qed.

(** A run that finds nothing to do. *)
Lemma run_with_nothing_to_do
    (weather_api : params number -> api_result number)
    (start_date end_date : string) (delay : Z)
    input (output : option (dataframe number)) :
  unprocessed (processed_cities output) input = [] ->
  (main weather_api start_date end_date delay input output).2 = Exhausted /\
  output_file (main weather_api start_date end_date delay input output).1
    = output /\
  requests (trace (main weather_api start_date end_date delay input output).1)
    = [] /\
  writes (trace (main weather_api start_date end_date delay input output).1)
    = [].
Proof.
  intros Hnil. unfold main. rewrite Hnil. simpl.
  destruct (else_block_spec (initial_state output)) as (evs & -> & Hp & Hw).
  destruct (initial_state_spec output) as (Hout & Hres & Hw0 & Hp0).
  simpl. rewrite Hres in *. simpl in *.
  split; [done|]. split; [done|].
  split; [by rewrite requests_pacing, pacing_app, Hp0, Hp|].
  unfold writes in *. by rewrite omap_app, Hw0, Hw.
Qed.

Variable weather_api : params number -> api_result number.
Variables start_date end_date : string.
Variable delay : Z.

Local Abbreviation request_params := (request_params start_date end_date).
Local Abbreviation main := (main weather_api start_date end_date delay).
Local Abbreviation frame_of := (frame_of weather_api start_date end_date).
Local Abbreviation yields_rows := (yields_rows weather_api start_date end_date).


(** X8.  Answers without a time step.  With a delay of at least zero
    seconds, a run whose lookups all succeed with an empty series still
    writes the file, creating it if it was absent, with the rows it already
    had and no other; no city name is added, so the next run has the same
    work list. *)
Theorem empty_answers_stay_in_the_work_list input
    (output : option (dataframe number)) :
  (0 <= delay)%Z ->
  unprocessed (processed_cities output) input <> [] ->
  Forall (fun row => weather_api (request_params row) = Hourly [])
         (unprocessed (processed_cities output) input) ->
  let after := output_file (main input output).1 in
  after = Some (table output) /\
  writes (trace (main input output).1) = [table output] /\
  processed_cities after = processed_cities output /\
  unprocessed (processed_cities after) input
    = unprocessed (processed_cities output) input.
Proof.
  intros _ Hne Hall after.
  destruct (initial_state_spec output) as (_ & Hres0 & _ & _).
  destruct (for_loop_results weather_api start_date end_date delay
              (unprocessed (processed_cities output) input)
              (initial_state output)) as (done & rest & Hdata & _ & Hres).
  rewrite Hres0 in Hres. simpl in Hres. fold (main input output) in Hres.
  assert (concat (frame_of <$> done) = []) as Hnone.
  { assert (Forall (fun row => weather_api (request_params row) = Hourly []) done)
      as Hdone.
    { rewrite Hdata in Hall. by apply Forall_app in Hall as [? _]. }
    clear -Hdone. induction Hdone as [|row data Hrow _ IH]; [done|].
    rewrite fmap_cons. cbn [concat].
    rewrite (frame_of_succeeds _ _ _ _ _ Hrow), IH. done. }
  assert (all_results (main input output).1 <> []) as Hsome.
  { unfold Weather.main.
    destruct (unprocessed (processed_cities output) input) as [|row data];
      [done|].
    apply Forall_cons in Hall as [Hrow _].
    destruct (sleep_error delay) as [e|] eqn:Hsleep.
    - destruct (for_loop_cons_sleep_raises _ _ _ _ row data (initial_state output)
                  [] e Hsleep Hrow) as (st' & -> & _ & Hres' & _).
      destruct (except_block_spec row e st') as (evs & -> & _); simpl.
      rewrite Hres'. by destruct (all_results (initial_state output)).
    - apply sleep_error_accepts in Hsleep as Hd.
      rewrite (for_loop_cons_ok _ _ _ _ _ _ _ _ Hd Hrow).
      match goal with
      | |- context [Weather.for_loop _ _ _ _ data ?s] =>
          destruct (for_loop_spec weather_api start_date end_date delay data s)
            as (evs & more & _ & -> & _)
      end; simpl.
      by destruct (all_results (initial_state output)). }
  destruct (main_spec weather_api start_date end_date delay input output)
    as [Hout Hw].
  rewrite Hres in Hout, Hw, Hsome. fold after in Hout.
  destruct (frame_of <$> done) as [|df dfs] eqn:Hframes; [done|].
  cbn [spec_merge] in Hout. unfold table in *.
  rewrite Hnone, app_nil_r in Hout, Hw.
  assert (processed_cities after = processed_cities output) as Hsame.
  { rewrite Hout. apply set_eq. intros c.
    by rewrite !elem_of_processed_cities. }
  split; [exact Hout|]. split; [exact Hw|]. split; [exact Hsame|].
  by rewrite Hsame.
Qed.

End WeatherNextRun.

(* ===================================================================== *)
(** ** Whole runs of the geocoding step *)
(* ===================================================================== *)

Section GeocodeAccounts.

Import Geocode Script.

Context {number : Type}.
Variable geolocator_geocode : nat -> string -> geocode_result number.
Variable stack_overflow : exn.

Local Abbreviation get_coordinates := (get_coordinates geolocator_geocode stack_overflow).
Local Abbreviation apply_rows := (apply_rows geolocator_geocode stack_overflow).
Local Abbreviation progress_apply := (progress_apply geolocator_geocode stack_overflow).
Local Abbreviation fetch_and_geocode_russian_cities :=
  (fetch_and_geocode_russian_cities geolocator_geocode stack_overflow).

Implicit Types (st : state number) (v : coords number).

Lemma naps_retries query n : naps (retries query n) = replicate n 1%Z.
Proof.
  induction n as [|n IH]; [done|]. unfold retries in *. simpl. by f_equal.
Qed.

(** The bill of one lookup: every call of the geocoder either timed out
    and was followed by the one-second sleep, or added an entry to the
    dictionary, or raised. *)
Lemma get_coordinates_bill stack city region st r st1 :
  get_coordinates stack city region st = (r, st1) ->
  length (geocodes (trace st1)) + size (cache st) + length (naps (trace st))
    = length (geocodes (trace st)) + size (cache st1)
      + length (naps (trace st1)) + (if r is inl _ then 1 else 0) /\
  (Forall (fun secs => secs = 1%Z) (naps (trace st)) ->
   Forall (fun secs => secs = 1%Z) (naps (trace st1))).
Proof.
  intros Hget. apply get_coordinates_inv in Hget.
  destruct (cache st !! cache_key city region) as [cached|] eqn:Hkey.
  - destruct Hget as [-> ->]. split; [lia|done].
  - destruct Hget as (n & _ & _ & ->). simpl.
    unfold geocodes, naps. rewrite !omap_app.
    fold (geocodes (trace st)) (naps (trace st)).
    fold (geocodes (retries (geocode_query city region) n)).
    fold (naps (retries (geocode_query city region) n)).
    rewrite geocodes_retries, naps_retries. simpl.
    rewrite !length_app, !length_replicate. simpl. split.
    + destruct r as [e|v]; simpl; [lia|].
      rewrite map_size_insert_None by done. lia.
    + intros Hone. rewrite app_nil_r. apply Forall_app. split; [done|].
      by apply Forall_replicate.
Qed.

(** A lookup that missed the dictionary has called the geocoder once more
    than it has slept, however it ended; a hit has done neither. *)
Lemma get_coordinates_calls stack city region st r st1 :
  get_coordinates stack city region st = (r, st1) ->
  (st1 = st) \/
  length (geocodes (trace st1)) + length (naps (trace st))
    = length (geocodes (trace st)) + length (naps (trace st1)) + 1.
Proof.
  intros Hget. apply get_coordinates_inv in Hget.
  destruct (cache st !! cache_key city region) as [cached|] eqn:Hkey.
  - destruct Hget as [_ ->]. by left.
  - destruct Hget as (n & _ & _ & ->). right. simpl.
    unfold geocodes, naps. rewrite !omap_app.
    fold (geocodes (trace st)) (naps (trace st)).
    fold (geocodes (retries (geocode_query city region) n)).
    fold (naps (retries (geocode_query city region) n)).
    rewrite geocodes_retries, naps_retries. simpl.
    rewrite !length_app, !length_replicate. simpl. lia.
Qed.

Lemma apply_rows_bill stack df st (res : exn + list (geocoded_row number)) st1 :
  apply_rows stack df st = (res, st1) ->
  length (geocodes (trace st1)) + size (cache st) + length (naps (trace st))
    = length (geocodes (trace st)) + size (cache st1)
      + length (naps (trace st1)) + (if res is inl _ then 1 else 0) /\
  (Forall (fun secs => secs = 1%Z) (naps (trace st)) ->
   Forall (fun secs => secs = 1%Z) (naps (trace st1))).
Proof.
  revert st res st1. induction df as [|row df IH]; intros st res st1; simpl.
  - intros [= <- <-]. split; [lia|done].
  - unfold fill_missing_coords.
    destruct (get_coordinates stack (city row) (region row) st)
      as [[e|[lat lon]] st'] eqn:Hget.
    + intros [= <- <-]. by apply get_coordinates_bill in Hget.
    + apply get_coordinates_bill in Hget as [Hbill Hone].
      destruct (apply_rows stack df st') as [[e|rs] st''] eqn:Hrest;
        intros [= <- <-];
        apply IH in Hrest as [Hbill' Hone']; simpl in *;
        (split; [lia|auto]).
Qed.

(** X9.  The bill of a run of step 2.  Every sleep lasts one second.  In
    a run that completes, the number of geocoder calls is the number of
    entries the cache file has gained plus the number of sleeps: a call
    either timed out or produced a new entry.  A run left by an exception
    has made more calls than sleeps, unless the city list had no row and
    the run has called and slept not at all. *)
Theorem geocoder_calls_are_accounted_for stack df (fs fs' : files number)
    ending tr :
  fetch_and_geocode_russian_cities stack df fs = (fs', ending, tr) ->
  Forall (fun secs => secs = 1%Z) (naps tr) /\
  match ending with
  | Completed =>
      length (geocodes tr) + size (default ∅ (cache_file fs))
        = size (default ∅ (cache_file fs')) + length (naps tr)
  | Uncaught _ =>
      length (naps tr) < length (geocodes tr) \/ (df = [] /\ tr = [])
  end.
Proof.
  unfold Geocode.fetch_and_geocode_russian_cities.
  destruct (progress_apply stack df (load_cache fs)) as [[e|rows] st] eqn:Hrun;
    intros [= <- <- <-].
  - destruct df as [|row df].
    + unfold Geocode.progress_apply in Hrun.
      destruct (get_coordinates stack nan nan (load_cache fs)) as [r st'] eqn:Hget.
      injection Hrun as _ <-.
      pose proof (get_coordinates_bill _ _ _ _ _ _ Hget) as [_ Hone].
      split; [by apply Hone|].
      apply get_coordinates_calls in Hget as [->|Hcalls]; [by right|].
      left. simpl in Hcalls. lia.
    + assert (size (cache (load_cache fs)) <= size (cache st)) as Hsize.
      { apply map_subseteq_size, map_subseteq_spec. intros k v Hk.
        by eapply progress_apply_keeps. }
      apply apply_rows_bill in Hrun as [Hbill Hone]; simpl in *.
      split; [by apply Hone|]. left. lia.
  - apply progress_apply_completed in Hrun as [_ Hrun].
    apply apply_rows_bill in Hrun as [Hbill Hone]; simpl in *.
    split; [by apply Hone|]. lia.
Qed.

(** A lookup adds at most the entry of its key. *)
Lemma get_coordinates_dom stack city region st (r : exn + coords number) st1 :
  get_coordinates stack city region st = (r, st1) ->
  cache st ⊆ cache st1 /\
  dom (cache st1) ⊆ dom (cache st) ∪ {[ cache_key city region ]} /\
  (forall w, r = inr w -> cache_key city region ∈ dom (cache st1)).
Proof.
  intros Hget.
  assert (forall w, r = inr w -> cache_key city region ∈ dom (cache st1)) as Hin.
  { intros w ->. apply elem_of_dom. eexists.
    by eapply get_coordinates_stores. }
  apply get_coordinates_inv in Hget.
  destruct (cache st !! cache_key city region) as [cached|] eqn:Hkey.
  - destruct Hget as [-> ->]. split; [done|].
    split; [apply union_subseteq_l|done].
  - destruct Hget as (n & _ & _ & ->). simpl in *.
    destruct r as [e|w]; simpl in *.
    + split; [done|]. split; [apply union_subseteq_l|done].
    + split; [by apply insert_subseteq|]. split; [|done].
      by rewrite dom_insert_L, (comm_L (∪)).
Qed.

Lemma apply_rows_dom stack df st rows st1 :
  apply_rows stack df st = (inr rows, st1) ->
  cache st ⊆ cache st1 /\
  dom (cache st1)
    = dom (cache st)
      ∪ list_to_set ((fun row => cache_key (city row) (region row)) <$> df).
Proof.
  revert st rows st1. induction df as [|row df IH]; intros st rows st1; simpl.
  - intros [= <- <-]. split; [done|].
    change (dom (cache st) = dom (cache st) ∪ ∅). by rewrite (right_id_L ∅ (∪)).
  - unfold fill_missing_coords.
    destruct (get_coordinates stack (city row) (region row) st)
      as [[e|[lat lon]] st'] eqn:Hget; [done|].
    destruct (apply_rows stack df st') as [[e|rs] st''] eqn:Hrest; [done|].
    intros [= <- <-].
    apply get_coordinates_dom in Hget as (Hsub & Hdom & Hin).
    specialize (Hin _ eq_refl).
    apply IH in Hrest as [Hsub' Hdom'].
    split; [by etrans|]. rewrite Hdom'.
    apply subseteq_dom in Hsub.
    apply set_eq. intros k.
    rewrite !elem_of_union, elem_of_singleton. split.
    + intros [Hk|Hk]; [|by auto].
      apply Hdom, elem_of_union in Hk as [Hk|Hk%elem_of_singleton]; by auto.
    + intros [Hk|[->|Hk]]; [left; by apply Hsub|by left|by right].
Qed.

(** X10.  The cache file only grows.  A run of step 2 that completes
    saves a dictionary that holds every entry of the dictionary it loaded,
    unchanged, and whose keys are the keys it loaded together with the
    keys of the rows of the city list. *)
Theorem cache_file_only_grows stack df (fs fs' : files number) tr :
  fetch_and_geocode_russian_cities stack df fs = (fs', Completed, tr) ->
  default ∅ (cache_file fs) ⊆ default ∅ (cache_file fs') /\
  dom (default ∅ (cache_file fs'))
    = dom (default ∅ (cache_file fs))
      ∪ list_to_set ((fun row => cache_key (city row) (region row)) <$> df).
Proof.
  unfold Geocode.fetch_and_geocode_russian_cities.
  destruct (progress_apply stack df (load_cache fs)) as [[e|rows] st] eqn:Hrun;
    [done|].
  intros [= <- <-]. simpl.
  apply progress_apply_completed in Hrun as [_ Hrun].
  by apply apply_rows_dom in Hrun.
Qed.

(** The files of a run that completes, from the dictionary it saves. *)
Lemma completed_run_files stack df (fs fs' : files number) tr :
  fetch_and_geocode_russian_cities stack df fs = (fs', Completed, tr) ->
  exists saved,
    fs' = {| output_file := Some (from_cache saved <$> df);
             cache_file := Some saved |} /\
    default ∅ (cache_file fs) ⊆ saved /\
    (forall row, row ∈ df ->
       is_Some (saved !! cache_key (city row) (region row))).
Proof.
  unfold Geocode.fetch_and_geocode_russian_cities.
  destruct (progress_apply stack df (load_cache fs)) as [[e|rows] st] eqn:Hrun;
    [done|].
  intros [= <- <-]. exists (cache st).
  apply progress_apply_completed in Hrun as [_ Hrun].
  destruct (apply_rows_completed _ _ _ _ _ _ _ Hrun) as [-> Hall].
  split; [done|]. split; [|done].
  by apply apply_rows_dom in Hrun as [Hsub _].
Qed.

(** X11.  An entry of the cache file decides.  In a run of step 2 that
    completes, every output row whose key is in the cache file the run
    loaded has the coordinates of that entry, whatever the geocoder would
    answer now; an entry [(None, None)] keeps its city without
    coordinates. *)
Theorem cache_entry_decides_the_output stack df (fs fs' : files number) tr
    key (v : coords number) :
  fetch_and_geocode_russian_cities stack df fs = (fs', Completed, tr) ->
  default ∅ (cache_file fs) !! key = Some v ->
  forall r,
    r ∈ default [] (output_file fs') ->
    cache_key (city (source r)) (region (source r)) = key ->
    latitude r = v.1 /\ longitude r = v.2.
Proof.
  intros Hrun Hentry r Hr Hkey.
  apply completed_run_files in Hrun as (saved & -> & Hsub & _).
  simpl in Hr. apply list_elem_of_fmap in Hr as (row & -> & _).
  simpl in *. rewrite Hkey.
  by rewrite (lookup_weaken _ _ _ _ Hentry Hsub).
Qed.

(** X12.  One key, one pair of coordinates.  In the output of a run of
    step 2 that completes, two rows with the same cache key have the same
    latitude and the same longitude. *)
Theorem same_key_same_coordinates stack df (fs fs' : files number) tr r1 r2 :
  fetch_and_geocode_russian_cities stack df fs = (fs', Completed, tr) ->
  r1 ∈ default [] (output_file fs') ->
  r2 ∈ default [] (output_file fs') ->
  cache_key (city (source r1)) (region (source r1))
    = cache_key (city (source r2)) (region (source r2)) ->
  latitude r1 = latitude r2 /\ longitude r1 = longitude r2.
Proof.
  intros Hrun Hr1 Hr2 Hkey.
  apply completed_run_files in Hrun as (saved & -> & _ & _).
  simpl in Hr1, Hr2.
  apply list_elem_of_fmap in Hr1 as (row1 & -> & _).
  apply list_elem_of_fmap in Hr2 as (row2 & -> & _).
  simpl in *. by rewrite Hkey.
Qed.

(** What a lookup stores has both coordinates or neither. *)
Lemma get_coordinates_paired stack city region st r st1 :
  get_coordinates stack city region st = (r, st1) ->
  map_Forall (fun _ => paired) (cache st) ->
  map_Forall (fun _ => paired) (cache st1).
Proof.
  intros Hget Hpaired. apply get_coordinates_inv in Hget.
  destruct (cache st !! cache_key city region) as [cached|] eqn:Hkey.
  - by destruct Hget as [_ ->].
  - destruct Hget as (n & _ & Hans & ->). simpl.
    destruct r as [e|w]; simpl; [done|].
    apply map_Forall_insert_2; [|done].
    destruct Hans as [[_ Hans]|[_ ?]]; [|done].
    destruct (geolocator_geocode _ _); simpl in Hans; simplify_eq;
      unfold paired; simpl; split; congruence.
Qed.

Lemma apply_rows_paired stack df st (res : exn + list (geocoded_row number)) st1 :
  apply_rows stack df st = (res, st1) ->
  map_Forall (fun _ => paired) (cache st) ->
  map_Forall (fun _ => paired) (cache st1).
Proof.
  revert st res st1. induction df as [|row df IH]; intros st res st1; simpl.
  - by intros [= <- <-].
  - unfold fill_missing_coords.
    destruct (get_coordinates stack (city row) (region row) st)
      as [[e|[lat lon]] st'] eqn:Hget.
    + intros [= <- <-]. by eapply get_coordinates_paired.
    + destruct (apply_rows stack df st') as [[e|rs] st''] eqn:Hrest;
        intros [= <- <-] Hpaired;
        (eapply IH; [exact Hrest|]); by eapply get_coordinates_paired.
Qed.

(** X13.  The closing report.  When every entry of the loaded cache file
    has both coordinates or neither, as have the entries this script
    stores, then so has every entry of the dictionary a completed run
    saves; the rows listed as not geocoded are exactly the output rows
    whose key holds the pair [(None, None)]; and the report says that all
    cities were geocoded exactly when every output row has both
    coordinates. *)
Theorem report_lists_the_cities_not_found stack df (fs fs' : files number) tr :
  fetch_and_geocode_russian_cities stack df fs = (fs', Completed, tr) ->
  map_Forall (fun _ => paired) (default ∅ (cache_file fs)) ->
  map_Forall (fun _ => paired) (default ∅ (cache_file fs')) /\
  (forall r,
     r ∈ missing_coords (default [] (output_file fs')) <->
     r ∈ default [] (output_file fs') /\
     default ∅ (cache_file fs')
       !! cache_key (city (source r)) (region (source r)) = Some (None, None)) /\
  (final_report (default [] (output_file fs')) = AllGeocoded <->
   forall r, r ∈ default [] (output_file fs') ->
             is_Some (latitude r) /\ is_Some (longitude r)).
Proof.
  intros Hrun Hpaired.
  assert (map_Forall (fun _ => paired) (default ∅ (cache_file fs'))) as Hsaved.
  { revert Hrun. unfold Geocode.fetch_and_geocode_russian_cities.
    destruct (progress_apply stack df (load_cache fs)) as [[e|rows] st] eqn:Hp;
      [done|].
    intros [= <- <-]. simpl.
    apply progress_apply_completed in Hp as [_ Hp].
    by eapply apply_rows_paired. }
  split; [exact Hsaved|].
  apply completed_run_files in Hrun as (saved & -> & _ & Hall).
  simpl in *. split.
  - intros r. unfold missing_coords. rewrite list_elem_of_filter. split.
    + intros [Hnone Hr]. split; [done|].
      apply list_elem_of_fmap in Hr as (row & -> & Hrow). simpl in *.
      destruct (Hall row Hrow) as [[lat lon] Hv]. rewrite Hv in *. simpl in *.
      pose proof (Hsaved _ _ Hv) as Hpair. unfold paired in Hpair. simpl in *.
      destruct Hnone as [->| ->]; f_equal; f_equal; tauto.
    + intros [Hr Hv]. split; [|done].
      apply list_elem_of_fmap in Hr as (row & -> & Hrow). simpl in *.
      rewrite Hv. by left.
  - unfold final_report.
    destruct (missing_coords (from_cache saved <$> df)) as [|m ms] eqn:Hmiss.
    + split; [|done]. intros _ r Hr.
      assert (r ∉ missing_coords (from_cache saved <$> df)) as Hnot
        by (rewrite Hmiss; apply not_elem_of_nil).
      unfold missing_coords in Hnot. rewrite list_elem_of_filter in Hnot.
      destruct (latitude r), (longitude r); try (exfalso; apply Hnot; auto; fail).
      by split.
    + split; [done|]. intros Hall'. exfalso.
      assert (m ∈ missing_coords (from_cache saved <$> df)) as Hm
        by (rewrite Hmiss; by left).
      unfold missing_coords in Hm. apply list_elem_of_filter in Hm as [Hnone Hm].
      destruct (Hall' m Hm) as [[? Hlat] [? Hlon]].
      destruct Hnone; congruence.
Qed.

End GeocodeAccounts.

(* ===================================================================== *)
(** ** Cleaning of the city table *)
(* ===================================================================== *)

Section CleaningFacts.

Import Cleaning.

Lemma append_nil_l (s : string) : "" +:+ s = s.
Proof. reflexivity. Qed.

Lemma append_cons (a : Ascii.ascii) (s1 s2 : string) :
  String a s1 +:+ s2 = String a (s1 +:+ s2).
Proof. reflexivity. Qed.

Lemma append_assoc (s1 s2 s3 : string) : (s1 +:+ s2) +:+ s3 = s1 +:+ (s2 +:+ s3).
Proof.
  induction s1 as [|a s1 IH]; [done|]. rewrite !append_cons. by f_equal.
Qed.

Variable unicode_decimal : N -> bool.
Variable inexact : codepoints -> Z.

Local Abbreviation is_digit := (is_digit unicode_decimal).
Local Abbreviation remove_non_digits := (remove_non_digits unicode_decimal).
Local Abbreviation has_no_digit := (has_no_digit unicode_decimal).
Local Abbreviation has_foreign_digit := (has_foreign_digit unicode_decimal).
Local Abbreviation to_numeric := (to_numeric inexact).
Local Abbreviation clean_population := (clean_population unicode_decimal inexact).

Lemma remove_non_digits_app (text1 text2 : codepoints) :
  remove_non_digits (text1 ++ text2)
  = remove_non_digits text1 ++ remove_non_digits text2.
Proof.
  induction text1 as [|c text1 IH]; [done|]. simpl.
  destruct (is_digit c); [|exact IH]. simpl. by f_equal.
Qed.

Lemma remove_non_digits_none (junk : codepoints) :
  has_no_digit junk = true -> remove_non_digits junk = [].
Proof.
  induction junk as [|c junk IH]; simpl; [done|].
  destruct (is_digit c); simpl; [done|]. exact IH.
Qed.

Lemma digits_value_app (acc : N) (digits1 digits2 : codepoints) :
  digits_value acc (digits1 ++ digits2)
  = digits_value (digits_value acc digits1) digits2.
Proof.
  revert acc. induction digits1 as [|c digits1 IH]; intros acc; [done|].
  simpl. apply IH.
Qed.

Lemma digits_value_shift (acc : N) (digits : codepoints) :
  digits_value acc digits
  = (acc * 10 ^ N.of_nat (length digits) + digits_value 0 digits)%N.
Proof.
  revert acc. induction digits as [|c digits IH]; intros acc.
  - simpl. lia.
  - cbn [digits_value length]. rewrite IH.
    rewrite (IH (10 * 0 + (c - 48))%N).
    rewrite Nat2N.inj_succ, N.pow_succ_r'. lia.
Qed.

(** Without a digit beyond ASCII, what the filter leaves is ASCII digits;
    with one, it is not. *)
Lemma remove_non_digits_ascii (text : codepoints) :
  forallb is_ascii_digit (remove_non_digits text) = negb (has_foreign_digit text).
Proof.
  induction text as [|c text IH]; [done|]. cbn [Cleaning.remove_non_digits].
  unfold Cleaning.has_foreign_digit in *. cbn [existsb].
  unfold Cleaning.is_digit.
  destruct (is_ascii_digit c) eqn:Hascii.
  - cbn [orb forallb]. rewrite Hascii, IH. cbn [andb].
    assert ((128 <=? c)%N = false) as ->; [|done].
    unfold is_ascii_digit in Hascii. apply andb_true_iff in Hascii as [_ Hle].
    apply N.leb_le in Hle. apply N.leb_gt. lia.
  - cbn [orb]. destruct ((128 <=? c)%N && unicode_decimal c) eqn:Hforeign.
    + cbn [forallb orb]. by rewrite Hascii.
    + exact IH.
Qed.

(** What line 73 gives for a cell without a digit beyond ASCII whose
    digits denote less than 2^53: that number. *)
Lemma clean_population_exact (text : codepoints) :
  has_foreign_digit text = false ->
  (digits_number (remove_non_digits text) < 2 ^ 53)%Z ->
  clean_population text = digits_number (remove_non_digits text).
Proof.
  intros Hforeign Hfits. unfold Cleaning.clean_population, Cleaning.to_numeric.
  rewrite remove_non_digits_ascii, Hforeign. cbn [negb].
  by apply Z.ltb_lt in Hfits as ->.
Qed.

(** X14.  The population cell is read through its decimal digits only: a
    stretch of other characters anywhere in the cell (spaces between the
    thousands, an arrow, letters) changes nothing, and a cell of such
    characters alone gives the population 0. *)
Theorem population_ignores_non_digits (text1 junk text2 : codepoints) :
  has_no_digit junk = true ->
  clean_population (text1 ++ junk ++ text2) = clean_population (text1 ++ text2) /\
  clean_population junk = 0%Z.
Proof.
  intros Hjunk. unfold Cleaning.clean_population.
  rewrite !remove_non_digits_app, (remove_non_digits_none _ Hjunk). by split.
Qed.

(** X15.  Digits further right in the cell are appended to the number: for
    a cell without a decimal digit beyond ASCII whose digits denote less
    than 2^53, the population of the cell is the population of its left
    part shifted by as many decimal places as the right part has digits,
    plus the population of the right part.  The digit of a footnote mark
    after the number becomes its last digit. *)
Theorem population_appends_later_digits (text1 text2 : codepoints) :
  has_foreign_digit (text1 ++ text2) = false ->
  (digits_number (remove_non_digits (text1 ++ text2)) < 2 ^ 53)%Z ->
  clean_population (text1 ++ text2)
  = (clean_population text1
       * 10 ^ Z.of_nat (length (remove_non_digits text2))
     + clean_population text2)%Z.
Proof.
  intros Hforeign Hfits.
  assert (has_foreign_digit text1 = false /\ has_foreign_digit text2 = false)
    as [Hforeign1 Hforeign2].
  { unfold Cleaning.has_foreign_digit in *. rewrite existsb_app in Hforeign.
    by apply orb_false_iff in Hforeign. }
  assert (digits_number (remove_non_digits (text1 ++ text2))
          = (digits_number (remove_non_digits text1)
               * 10 ^ Z.of_nat (length (remove_non_digits text2))
             + digits_number (remove_non_digits text2))%Z) as Hsum.
  { unfold digits_number.
    rewrite remove_non_digits_app, digits_value_app, digits_value_shift.
    rewrite N2Z.inj_add, N2Z.inj_mul, N2Z.inj_pow. by rewrite nat_N_Z. }
  assert (0 <= digits_number (remove_non_digits text1))%Z as Hpos1
    by (unfold digits_number; lia).
  assert (0 <= digits_number (remove_non_digits text2))%Z as Hpos2
    by (unfold digits_number; lia).
  assert (1 <= 10 ^ Z.of_nat (length (remove_non_digits text2)))%Z as Hpow.
  { change 1%Z with (10 ^ 0)%Z at 1. apply Z.pow_le_mono_r; lia. }
  rewrite (clean_population_exact _ Hforeign Hfits).
  rewrite (clean_population_exact _ Hforeign1) by nia.
  rewrite (clean_population_exact _ Hforeign2) by nia.
  exact Hsum.
Qed.

(** X22.  A decimal digit beyond ASCII voids the cell.  The filter of line
    72 keeps it, as the digit it is, and [to_numeric] cannot read it: the
    population is 0, whatever ASCII digits the cell holds besides. *)
Theorem foreign_digit_voids_the_population (text : codepoints) :
  has_foreign_digit text = true ->
  clean_population text = 0%Z.
Proof.
  intros Hforeign. unfold Cleaning.clean_population, Cleaning.to_numeric.
  by rewrite remove_non_digits_ascii, Hforeign.
Qed.

(** X16.  The names of the regions are normalised once and for all: a
    normalised name is not one of the abbreviations, normalising it again
    changes nothing, and a name that is not an abbreviation is kept. *)
Theorem region_names_are_normalised_once (cell : string) :
  region_map !! replace region_map cell = None /\
  replace region_map (replace region_map cell) = replace region_map cell /\
  (region_map !! cell = None -> replace region_map cell = cell).
Proof.
  assert (region_map !! replace region_map cell = None) as Hnone.
  { unfold replace.
    destruct (region_map !! cell) as [full|] eqn:Hcell; simpl; [|done].
    unfold region_map in Hcell. simpl in Hcell.
    repeat (rewrite lookup_insert in Hcell; case_decide;
            [simplify_eq; by vm_compute|]).
    by rewrite lookup_empty in Hcell. }
  split; [exact Hnone|]. split.
  - unfold replace at 1. by rewrite Hnone.
  - intros Hcell. unfold replace. by rewrite Hcell.
Qed.

Lemma prefix_iff (a text : string) :
  String.prefix a text = true <-> exists rest, text = a +:+ rest.
Proof.
  revert text. induction a as [|c a IH]; intros text.
  - split; [intros _; by exists text|]. intros _. by destruct text.
  - destruct text as [|c' text].
    + split; [intros Hfalse; by vm_compute in Hfalse|]. by intros [rest Hrest].
    + change (String.prefix (String c a) (String c' text))
        with (if Ascii.ascii_dec c c' then String.prefix a text else false).
      destruct (Ascii.ascii_dec c c') as [<-|Hne].
      * rewrite IH. split; intros [rest Hrest]; exists rest.
        -- by rewrite append_cons, Hrest.
        -- rewrite append_cons in Hrest. by simplify_eq.
      * split; [done|]. intros [rest Hrest].
        rewrite append_cons in Hrest. by simplify_eq.
Qed.

Lemma skip_append (a rest : string) : skip (String.length a) (a +:+ rest) = rest.
Proof. induction a as [|c a IH]; [done|]. rewrite append_cons. exact IH. Qed.

Lemma elem_of_spellings_cons (here : list string) (rest : pattern) word :
  word ∈ spellings (here :: rest) <->
  exists spelling tail,
    spelling ∈ here /\ tail ∈ spellings rest /\ word = spelling +:+ tail.
Proof.
  simpl. rewrite list_elem_of_In, in_flat_map. split.
  - intros (spelling & Hin & Hword).
    apply list_elem_of_In, list_elem_of_fmap in Hword as (tail & -> & Htail).
    exists spelling, tail. by rewrite list_elem_of_In.
  - intros (spelling & tail & Hin & Htail & ->). exists spelling.
    split; [by apply list_elem_of_In|].
    apply list_elem_of_In, list_elem_of_fmap. by exists tail.
Qed.

Lemma matches_at_iff (p : pattern) (text : string) :
  matches_at p text = true <->
  exists word rest, word ∈ spellings p /\ text = word +:+ rest.
Proof.
  revert text. induction p as [|here p IH]; intros text.
  - simpl. split; [|done]. intros _. exists "", text. split; [by left|done].
  - cbn [matches_at]. rewrite existsb_exists. split.
    + intros (spelling & Hin & Hboth).
      apply andb_true_iff in Hboth as [Hprefix Hrest].
      apply prefix_iff in Hprefix as [tail ->].
      rewrite skip_append in Hrest. apply IH in Hrest as (word & rest & Hword & ->).
      exists (spelling +:+ word), rest. split; [|by rewrite append_assoc].
      apply elem_of_spellings_cons. exists spelling, word.
      by rewrite list_elem_of_In.
    + intros (word & rest & Hword & ->).
      apply elem_of_spellings_cons in Hword as (spelling & tail & Hin & Htail & ->).
      exists spelling. split; [by apply list_elem_of_In|].
      rewrite append_assoc. apply andb_true_iff. split.
      * apply prefix_iff. by eexists.
      * rewrite skip_append. apply IH. by exists tail, rest.
Qed.

(** X17.  The search of line 84.  A pattern is found in a text exactly
    when the text is some text, then one of the spellings of the pattern,
    then some text; for the marker these are its 128 spellings in lower
    and upper case letters, among them the all-lower and the all-upper
    one. *)
Theorem contains_finds_every_spelling (p : pattern) (text : string) :
  (contains p text = true <->
   exists before word after,
     word ∈ spellings p /\ text = before +:+ word +:+ after) /\
  length (spellings marker) = 128 /\
  "не призн." ∈ spellings marker /\
  "НЕ ПРИЗН." ∈ spellings marker.
Proof.
  split; [|split; [reflexivity|split; apply (bool_decide_unpack _); by vm_compute]].
  split.
  - induction text as [|c text IH]; cbn [contains];
      rewrite orb_true_iff; intros [Hhere|Hlater]; try done.
    + apply matches_at_iff in Hhere as (word & rest & Hword & ->).
      by exists "", word, rest.
    + apply matches_at_iff in Hhere as (word & rest & Hword & ->).
      by exists "", word, rest.
    + destruct (IH Hlater) as (before & word & after & Hword & ->).
      by exists (String c before), word, after.
  - intros (before & word & after & Hword & ->).
    induction before as [|c before IH].
    + rewrite append_nil_l.
      assert (matches_at p (word +:+ after) = true) as Hhere
        by (apply matches_at_iff; by exists word, after).
      destruct (word +:+ after); cbn [contains]; by rewrite Hhere.
    + rewrite append_cons. cbn [contains]. rewrite IH. apply orb_true_r.
Qed.

End CleaningFacts.

(* ===================================================================== *)
(** ** The whole geocoding script *)
(* ===================================================================== *)

Section ScriptFacts.

Import Geocode Cleaning Script.

Context {number : Type}.
Variable unicode_decimal : N -> bool.
Variable inexact : codepoints -> Z.
Variable geolocator_geocode : nat -> string -> geocode_result number.
Variable stack_overflow : exn.

Local Abbreviation clean := (clean unicode_decimal inexact).
Local Abbreviation run_script :=
  (run_script unicode_decimal inexact geolocator_geocode stack_overflow).

(** Every geocoder call of a lookup is the query of its city. *)
Lemma get_coordinates_queries stack city region (st : state number)
    (r : exn + coords number) st1 q :
  get_coordinates geolocator_geocode stack_overflow stack city region st = (r, st1) ->
  q ∈ geocodes (trace st1) ->
  q ∈ geocodes (trace st) \/ q = geocode_query city region.
Proof.
  intros Hget Hq. apply get_coordinates_inv in Hget.
  destruct (cache st !! cache_key city region) as [cached|].
  - destruct Hget as [_ ->]. by left.
  - destruct Hget as (n & _ & _ & ->). simpl in Hq.
    unfold geocodes in Hq. rewrite !omap_app in Hq.
    fold (geocodes (trace st)) in Hq.
    fold (geocodes (retries (geocode_query city region) n)) in Hq.
    rewrite geocodes_retries in Hq. simpl in Hq.
    apply elem_of_app in Hq as [Hq|Hq]; [by left|]. right.
    apply elem_of_app in Hq as [Hq|Hq].
    + by apply elem_of_replicate in Hq as [-> _].
    + by apply list_elem_of_singleton in Hq.
Qed.

Lemma apply_rows_queries stack df (st : state number)
    (res : exn + list (geocoded_row number)) st1 q :
  apply_rows geolocator_geocode stack_overflow stack df st = (res, st1) ->
  q ∈ geocodes (trace st1) ->
  q ∈ geocodes (trace st) \/
  exists row, row ∈ df /\ q = geocode_query (city row) (region row).
Proof.
  revert st res st1. induction df as [|row df IH]; intros st res st1; simpl.
  - intros [= <- <-]. by left.
  - unfold fill_missing_coords.
    destruct (get_coordinates geolocator_geocode stack_overflow stack (city row) (region row) st)
      as [[e|[lat lon]] st'] eqn:Hget.
    + intros [= <- <-] Hq.
      destruct (get_coordinates_queries _ _ _ _ _ _ _ Hget Hq) as [?| ->];
        [by left|]. right. exists row. split; [by left|done].
    + assert (forall res' st'',
                apply_rows geolocator_geocode stack_overflow stack df st' = (res', st'') ->
                q ∈ geocodes (trace st'') ->
                q ∈ geocodes (trace st) \/
                exists row0, row0 ∈ row :: df /\
                             q = geocode_query (city row0) (region row0)) as Hstep.
      { intros res' st'' Hrest Hq.
        destruct (IH _ _ _ Hrest Hq) as [Hq'|(row0 & Hrow0 & ->)].
        - destruct (get_coordinates_queries _ _ _ _ _ _ _ Hget Hq') as [?| ->];
            [by left|]. right. exists row. split; [by left|done].
        - right. exists row0. split; [by right|done]. }
      destruct (apply_rows geolocator_geocode stack_overflow stack df st')
        as [[e|rs] st''] eqn:Hrest; intros [= <- <-] Hq;
        by eapply Hstep.
Qed.

(** The calls of line 125: for the rows of the frame, or, on a frame
    without rows, for the row of missing values. *)
Lemma progress_apply_queries stack df (st : state number)
    (res : exn + list (geocoded_row number)) st1 q :
  progress_apply geolocator_geocode stack_overflow stack df st = (res, st1) ->
  q ∈ geocodes (trace st1) ->
  q ∈ geocodes (trace st) \/
  (exists row, row ∈ df /\ q = geocode_query (city row) (region row)) \/
  (df = [] /\ q = geocode_query nan nan).
Proof.
  destruct df as [|row df].
  - unfold Geocode.progress_apply.
    destruct (get_coordinates geolocator_geocode stack_overflow stack nan nan st)
      as [r st'] eqn:Hget.
    intros [= <- <-] Hq.
    destruct (get_coordinates_queries _ _ _ _ _ _ _ Hget Hq) as [?| ->];
      [by left|]. right. by right.
  - intros Hrun Hq.
    destruct (apply_rows_queries _ _ _ _ _ _ Hrun Hq) as [?|?]; [by left|].
    right. by left.
Qed.

(** X18.  Both city lists are rewritten by every run of the script, also
    when the geocoding is left by an exception: the cleaned rows whose
    name carries the marker go to the list of unrecognized cities, the
    others to the list of cities, each in table order, and together they
    are the cleaned table. *)
Theorem city_lists_split_the_table stack (table : list raw_row)
    (d d' : disk number) ending tr rep :
  run_script stack table d = (d', ending, tr, rep) ->
  exists recognized unrecognized,
    russian_cities d' = Some recognized /\
    unrecognized_cities d' = Some unrecognized /\
    unrecognized ++ recognized ≡ₚ clean <$> table /\
    recognized `sublist_of` clean <$> table /\
    unrecognized `sublist_of` clean <$> table /\
    (forall r, r ∈ recognized -> contains marker (city r) = false) /\
    (forall r, r ∈ unrecognized -> contains marker (city r) = true).
Proof.
  unfold Script.run_script.
  destruct (fetch_and_geocode_russian_cities _ _ _ _) as [[fs e] t].
  intros [= <- <- <- <-]. simpl.
  exists (df_recognized (clean <$> table)), (df_unrecognized (clean <$> table)).
  split; [done|]. split; [done|].
  split; [apply filter_app_complement|].
  split; [apply sublist_filter|]. split; [apply sublist_filter|].
  split.
  - intros r [Hr _]%list_elem_of_filter. by destruct (contains marker (city r)).
  - by intros r [Hr _]%list_elem_of_filter.
Qed.

(** X19.  Unrecognized cities are not geocoded.  Every geocoder call of a
    run of the script is the query of a cleaned row whose name does not
    carry the marker, or, when there is no such row at all, the query
    [nan, nan, Russia] of the row of missing values; and then the run is
    left by the [ValueError] of line 125.  A run that completes writes one
    output row per cleaned row without the marker, in table order, and
    gives the report on those rows; a run left by an exception leaves the
    output table and the cache file as they were and gives no report. *)
Theorem unrecognized_cities_are_not_geocoded stack (table : list raw_row)
    (d d' : disk number) ending tr rep :
  run_script stack table d = (d', ending, tr, rep) ->
  (forall q, q ∈ geocodes tr ->
     (exists row,
        row ∈ clean <$> table /\ contains marker (city row) = false /\
        q = geocode_query (city row) (region row)) \/
     (df_recognized (clean <$> table) = [] /\ q = "nan, nan, Russia")) /\
  (df_recognized (clean <$> table) = [] ->
   ending = Uncaught (ValueError "Columns must be same length as key")) /\
  match ending with
  | Completed =>
      exists rows,
        output_file (geocoding d') = Some rows /\
        source <$> rows = df_recognized (clean <$> table) /\
        rep = Some (final_report rows)
  | Uncaught _ => geocoding d' = geocoding d /\ rep = None
  end.
Proof.
  unfold Script.run_script.
  destruct (fetch_and_geocode_russian_cities _ _ _ _) as [[fs e] t] eqn:Hrun.
  intros [= <- <- <- <-]. simpl. split; [|split].
  - intros q Hq. revert Hrun. unfold fetch_and_geocode_russian_cities.
    destruct (progress_apply _ _ _ _) as [res st] eqn:Hp.
    intros Hrun.
    assert (t = trace st) as -> by (destruct res; by simplify_eq).
    destruct (progress_apply_queries _ _ _ _ _ _ Hp Hq)
      as [Hnil|[(row & Hrow & ->)|[Hempty ->]]];
      [by apply elem_of_nil in Hnil| |by right].
    left. apply list_elem_of_filter in Hrow as [Hmark Hrow].
    exists row. split; [done|]. split; [|done].
    by destruct (contains marker (city row)).
  - intros Hempty. revert Hrun. rewrite Hempty.
    unfold fetch_and_geocode_russian_cities, progress_apply.
    destruct (get_coordinates _ _ _ _ _) as [r st]. by intros [= _ <- _].
  - apply fetch_and_geocode_russian_cities_ends in Hrun.
    destruct e as [|exc]; [|by split].
    destruct Hrun as (rows & saved & -> & _ & Hsrc & _). by exists rows.
Qed.

End ScriptFacts.

(* ===================================================================== *)
(** ** How runs end *)
(* ===================================================================== *)

Section Endings.

Context {number : Type}.


(** X21.  How a run of step 2 is left.  The timeout of the geocoder never
    leaves the run.  A run left by an exception is left by an exception
    that the geocoder raised on the query of a row of the city list and
    that is not the timeout; or by the overflow of the stack
    ([stack_overflow], [RecursionError] in CPython), the geocoder having
    timed out on the query of a row as often in a row as the stack holds
    activations; or, the city list having no row, by the [ValueError] of
    line 125.  However it is left, the run has written neither file. *)
Theorem how_a_geocoding_run_is_left
    (geolocator_geocode : nat -> string -> Geocode.geocode_result number)
    (stack_overflow : exn) stack df (fs fs' : Geocode.files number) e tr :
  Geocode.fetch_and_geocode_russian_cities geolocator_geocode stack_overflow
    stack df fs
    = (fs', Geocode.Uncaught e, tr) ->
  fs' = fs /\
  ((df = [] /\ e = ValueError "Columns must be same length as key") \/
   (exists n row,
      row ∈ df /\
      geolocator_geocode n
        (Geocode.geocode_query (Geocode.city row) (Geocode.region row))
      = Geocode.GeocodeRaised e) \/
   (exists first row,
      row ∈ df /\
      e = stack_overflow /\
      forall i, i < stack ->
        geolocator_geocode (first + i)
          (Geocode.geocode_query (Geocode.city row) (Geocode.region row))
        = Geocode.GeocoderTimedOut)).
Proof.
  unfold Geocode.fetch_and_geocode_russian_cities.
  destruct (Geocode.progress_apply geolocator_geocode stack_overflow stack df
              (Geocode.load_cache fs))
    as [[e'|rows] st] eqn:Hrun; [|done].
  intros [= <- <- <-]. split; [done|].
  destruct df as [|row0 df0].
  { left. split; [done|]. unfold Geocode.progress_apply in Hrun.
    destruct (Geocode.get_coordinates _ _ _ _ _) as [r st'].
    by injection Hrun as <- _. }
  right. unfold Geocode.progress_apply in Hrun.
  revert Hrun. generalize (Geocode.load_cache fs). generalize (row0 :: df0).
  clear. intros df.
  induction df as [|row df IH]; intros st0; simpl; [done|].
  unfold Geocode.fill_missing_coords.
  destruct (Geocode.get_coordinates geolocator_geocode stack_overflow stack
              (Geocode.city row) (Geocode.region row) st0)
    as [[e|[lat lon]] st'] eqn:Hget.
  - intros [= -> <-]. apply get_coordinates_inv in Hget.
    destruct (Geocode.cache st0 !! _) as [cached|]; [by destruct Hget|].
    destruct Hget as (n & Hto & [[_ Hans]|[-> [= ->]]] & _).
    + left. exists (Geocode.calls st0 + n), row. split; [by left|].
      destruct (geolocator_geocode _ _); simpl in Hans; by simplify_eq.
    + right. exists (Geocode.calls st0), row. split; [by left|]. by split.
  - destruct (Geocode.apply_rows geolocator_geocode stack_overflow stack df st')
      as [[e|rs] st''] eqn:Hrest; [|done].
    intros [= -> <-].
    destruct (IH _ Hrest) as [(n & row' & Hin & Hraise)|(k & row' & Hin & He & Hto)].
    + left. exists n, row'. split; [by right|done].
    + right. exists k, row'. split; [by right|done].
Qed.

End Endings.

(* ===================================================================== *)
(** ** The further theorems on concrete runs *)
(* ===================================================================== *)

Section MoreRuns.

Import Examples Samples.




(** The midnight row of Kazan comes from the source row of Kazan. *)
Lemma new_rows_come_from_the_work_list_witness :
  kazan_midnight
    ∈ Weather.table
        (Weather.output_file
           (run archive_up [kirovsk_murmansk; kazan] (Some kirovsk_saved)).1) /\
  (kazan_midnight ∈ Weather.table (Some kirovsk_saved) \/
   exists row,
     row ∈ Weather.unprocessed (Weather.processed_cities (Some kirovsk_saved))
             [kirovsk_murmansk; kazan] /\
     Weather.succeeds archive_up "2023-01-01" "2023-01-02" row /\
     kazan_midnight ∈ Batch.frame_of archive_up "2023-01-01" "2023-01-02" row /\
     Weather.row_city kazan_midnight = Weather.city row).
Proof.
  assert (kazan_midnight
            ∈ Weather.table
                (Weather.output_file
                   (run archive_up [kirovsk_murmansk; kazan]
                      (Some kirovsk_saved)).1)) as Hin.
  { vm_compute. do 2 right. by left. }
  split; [exact Hin|].
  exact (new_rows_come_from_the_work_list archive_up
           "2023-01-01" "2023-01-02" 30%Z
           [kirovsk_murmansk; kazan] (Some kirovsk_saved) kazan_midnight Hin).
Defined.


(** An archive without a time step for Kazan. *)
Lemma empty_answers_stay_in_the_work_list_witness :
  let nothing : option (Weather.dataframe Z) := None in
  let after := Weather.output_file (run archive_silent [kazan] nothing).1 in
  (0 <= 30)%Z /\
  Weather.unprocessed (Weather.processed_cities nothing) [kazan] <> [] /\
  Forall (fun row => archive_silent (request_for row) = Weather.Hourly [])
    (Weather.unprocessed (Weather.processed_cities nothing) [kazan]) /\
  after = Some [] /\
  Weather.unprocessed (Weather.processed_cities after) [kazan]
    = Weather.unprocessed (Weather.processed_cities nothing) [kazan].
Proof.
  intros nothing after.
  assert (0 <= 30)%Z as Hdelay by lia.
  assert (Weather.unprocessed (Weather.processed_cities nothing) [kazan] <> [])
    as Hne by (vm_compute; discriminate).
  assert (Forall (fun row => archive_silent (request_for row) = Weather.Hourly [])
            (Weather.unprocessed (Weather.processed_cities nothing) [kazan]))
    as Hall by (vm_compute; repeat constructor).
  pose proof (empty_answers_stay_in_the_work_list archive_silent
                "2023-01-01" "2023-01-02" 30%Z [kazan] nothing
                Hdelay Hne Hall) as (Hafter & _ & _ & Hsame).
  split; [exact Hdelay|]. split; [exact Hne|]. split; [exact Hall|].
  split; [exact Hafter|exact Hsame].
Defined.

Lemma sample_script_run :
  Script.run_script arabic_indic int64_column atlas recursion_error 1 raw_table blank_disk
  = (atlas_disk, Geocode.Completed, atlas_trace, Some atlas_report).
Proof. vm_compute. reflexivity. Qed.

Lemma sample_geocoding_run :
  Geocode.fetch_and_geocode_russian_cities atlas recursion_error 1 [moscow_city; salekhard_city]
    no_files
  = (atlas_files, Geocode.Completed, atlas_trace).
Proof. vm_compute. reflexivity. Qed.

Lemma slow_kirovsk_run :
  Geocode.fetch_and_geocode_russian_cities slow_geocoder recursion_error 2
    [kirovsk; kirovsk_census] no_files
  = ({| Geocode.output_file := Some [kirovsk_geocoded; kirovsk_census_geocoded];
        Geocode.cache_file := Geocode.cache_file kirovsk_files |},
     Geocode.Completed, Geocode.trace kirovsk_looked_up).
Proof. vm_compute. reflexivity. Qed.

(** Two calls for Kirovsk: one timed out and was slept on, one gave the
    entry. *)
Lemma geocoder_calls_are_accounted_for_witness :
  Geocode.fetch_and_geocode_russian_cities slow_geocoder recursion_error 2
    [kirovsk; kirovsk_census] no_files
  = ({| Geocode.output_file := Some [kirovsk_geocoded; kirovsk_census_geocoded];
        Geocode.cache_file := Geocode.cache_file kirovsk_files |},
     Geocode.Completed, Geocode.trace kirovsk_looked_up) /\
  Forall (fun secs => secs = 1%Z) (Script.naps (Geocode.trace kirovsk_looked_up)) /\
  length (Geocode.geocodes (Geocode.trace kirovsk_looked_up))
    + size (default (∅ : gmap string (Geocode.coords Z))
              (Geocode.cache_file no_files))
  = size (default ∅ (Geocode.cache_file kirovsk_files))
    + length (Script.naps (Geocode.trace kirovsk_looked_up)).
Proof.
  split; [exact slow_kirovsk_run|].
  exact (geocoder_calls_are_accounted_for slow_geocoder recursion_error 2
           [kirovsk; kirovsk_census] no_files _ Geocode.Completed _
           slow_kirovsk_run).
Defined.

(** From no cache file to the entries of Moscow and Salekhard. *)
Lemma cache_file_only_grows_witness :
  Geocode.fetch_and_geocode_russian_cities atlas recursion_error 1 [moscow_city; salekhard_city]
    no_files
  = (atlas_files, Geocode.Completed, atlas_trace) /\
  default ∅ (Geocode.cache_file no_files) ⊆ default ∅ (Geocode.cache_file atlas_files) /\
  dom (default ∅ (Geocode.cache_file atlas_files))
  = dom (default (∅ : gmap string (Geocode.coords Z))
           (Geocode.cache_file no_files))
    ∪ list_to_set
        ((fun row => Geocode.cache_key (Geocode.city row) (Geocode.region row))
           <$> [moscow_city; salekhard_city]).
Proof.
  split; [exact sample_geocoding_run|].
  exact (cache_file_only_grows atlas recursion_error 1 [moscow_city; salekhard_city]
           no_files atlas_files atlas_trace sample_geocoding_run).
Defined.

Lemma dead_geocoder_run :
  Geocode.fetch_and_geocode_russian_cities dead_geocoder recursion_error 1
    [moscow_city; salekhard_city] atlas_files
  = (atlas_files, Geocode.Completed, []).
Proof. vm_compute. reflexivity. Qed.

(** Salekhard was not found once; with the geocoder down, the cache file
    still decides, and Salekhard stays without coordinates. *)
Lemma cache_entry_decides_the_output_witness :
  Geocode.fetch_and_geocode_russian_cities dead_geocoder recursion_error 1
    [moscow_city; salekhard_city] atlas_files
  = (atlas_files, Geocode.Completed, []) /\
  default ∅ (Geocode.cache_file atlas_files)
    !! "Салехард, Ямало-Ненецкий автономный округ" = Some (None, None) /\
  salekhard_geocoded ∈ default [] (Geocode.output_file atlas_files) /\
  Geocode.cache_key (Geocode.city (Geocode.source salekhard_geocoded))
    (Geocode.region (Geocode.source salekhard_geocoded))
  = "Салехард, Ямало-Ненецкий автономный округ" /\
  Geocode.latitude salekhard_geocoded = None /\
  Geocode.longitude salekhard_geocoded = None.
Proof.
  assert (default ∅ (Geocode.cache_file atlas_files)
            !! "Салехард, Ямало-Ненецкий автономный округ"
          = Some ((None, None) : Geocode.coords Z)) as Hentry
    by (vm_compute; reflexivity).
  assert (salekhard_geocoded ∈ default [] (Geocode.output_file atlas_files))
    as Hrow by (simpl; right; by left).
  assert (Geocode.cache_key (Geocode.city (Geocode.source salekhard_geocoded))
            (Geocode.region (Geocode.source salekhard_geocoded))
          = "Салехард, Ямало-Ненецкий автономный округ") as Hkey
    by reflexivity.
  split; [exact dead_geocoder_run|]. split; [exact Hentry|].
  split; [exact Hrow|]. split; [exact Hkey|].
  exact (cache_entry_decides_the_output dead_geocoder recursion_error 1
           [moscow_city; salekhard_city] atlas_files atlas_files []
           "Салехард, Ямало-Ненецкий автономный округ" (None, None)
           dead_geocoder_run Hentry salekhard_geocoded Hrow Hkey).
Defined.

(** Kirovsk twice in the list, with two population figures. *)
Lemma same_key_same_coordinates_witness :
  let rows := [kirovsk_geocoded; kirovsk_census_geocoded] in
  Geocode.fetch_and_geocode_russian_cities slow_geocoder recursion_error 2
    [kirovsk; kirovsk_census] no_files
  = ({| Geocode.output_file := Some rows;
        Geocode.cache_file := Geocode.cache_file kirovsk_files |},
     Geocode.Completed, Geocode.trace kirovsk_looked_up) /\
  kirovsk_geocoded ∈ rows /\
  kirovsk_census_geocoded ∈ rows /\
  Geocode.cache_key (Geocode.city (Geocode.source kirovsk_geocoded))
    (Geocode.region (Geocode.source kirovsk_geocoded))
  = Geocode.cache_key (Geocode.city (Geocode.source kirovsk_census_geocoded))
      (Geocode.region (Geocode.source kirovsk_census_geocoded)) /\
  Geocode.latitude kirovsk_geocoded = Geocode.latitude kirovsk_census_geocoded /\
  Geocode.longitude kirovsk_geocoded = Geocode.longitude kirovsk_census_geocoded.
Proof.
  intros rows.
  assert (kirovsk_geocoded ∈ rows) as H1 by (by left).
  assert (kirovsk_census_geocoded ∈ rows) as H2 by (right; by left).
  assert (Geocode.cache_key (Geocode.city (Geocode.source kirovsk_geocoded))
            (Geocode.region (Geocode.source kirovsk_geocoded))
          = Geocode.cache_key
              (Geocode.city (Geocode.source kirovsk_census_geocoded))
              (Geocode.region (Geocode.source kirovsk_census_geocoded))) as Hkey
    by reflexivity.
  split; [exact slow_kirovsk_run|]. split; [exact H1|]. split; [exact H2|].
  split; [exact Hkey|].
  exact (same_key_same_coordinates slow_geocoder recursion_error 2 [kirovsk; kirovsk_census]
           no_files _ _ kirovsk_geocoded kirovsk_census_geocoded
           slow_kirovsk_run H1 H2 Hkey).
Defined.

(** Moscow found, Salekhard not: the report lists Salekhard. *)
Lemma report_lists_the_cities_not_found_witness :
  Geocode.fetch_and_geocode_russian_cities atlas recursion_error 1 [moscow_city; salekhard_city]
    no_files
  = (atlas_files, Geocode.Completed, atlas_trace) /\
  map_Forall (fun _ => Script.paired)
    (default (∅ : gmap string (Geocode.coords Z)) (Geocode.cache_file no_files)) /\
  map_Forall (fun _ => Script.paired) (default ∅ (Geocode.cache_file atlas_files)) /\
  (salekhard_geocoded
     ∈ Script.missing_coords (default [] (Geocode.output_file atlas_files)) <->
   salekhard_geocoded ∈ default [] (Geocode.output_file atlas_files) /\
   default ∅ (Geocode.cache_file atlas_files)
     !! Geocode.cache_key (Geocode.city (Geocode.source salekhard_geocoded))
          (Geocode.region (Geocode.source salekhard_geocoded))
   = Some (None, None)).
Proof.
  assert (map_Forall (fun _ => Script.paired)
            (default (∅ : gmap string (Geocode.coords Z))
               (Geocode.cache_file no_files))) as Hpaired
    by apply map_Forall_empty.
  pose proof (report_lists_the_cities_not_found atlas recursion_error 1
                [moscow_city; salekhard_city] no_files atlas_files atlas_trace
                sample_geocoding_run Hpaired) as (Hsaved & Hmissing & _).
  split; [exact sample_geocoding_run|]. split; [exact Hpaired|].
  split; [exact Hsaved|]. exact (Hmissing salekhard_geocoded).
Defined.

(** The spaces between the thousands. *)
Lemma population_ignores_non_digits_witness :
  let million := Cleaning.codes "13" in
  let space := Cleaning.codes " " in
  let rest := Cleaning.codes "010 112" in
  Cleaning.has_no_digit arabic_indic space = true /\
  Cleaning.clean_population arabic_indic int64_column (million ++ space ++ rest)
    = Cleaning.clean_population arabic_indic int64_column (million ++ rest) /\
  Cleaning.clean_population arabic_indic int64_column space = 0%Z.
Proof.
  intros million space rest.
  assert (Cleaning.has_no_digit arabic_indic space = true) as Hjunk
    by reflexivity.
  split; [exact Hjunk|].
  exact (population_ignores_non_digits arabic_indic int64_column
           million space rest Hjunk).
Defined.

(** The footnote mark of Salekhard. *)
Lemma population_appends_later_digits_witness :
  let figure := arrow :: Cleaning.codes "51 263" in
  let footnote := Cleaning.codes "[1]" in
  Cleaning.has_foreign_digit arabic_indic (figure ++ footnote) = false /\
  (Cleaning.digits_number
     (Cleaning.remove_non_digits arabic_indic (figure ++ footnote)) < 2 ^ 53)%Z /\
  Cleaning.clean_population arabic_indic int64_column (figure ++ footnote)
  = (Cleaning.clean_population arabic_indic int64_column figure
       * 10 ^ Z.of_nat (length (Cleaning.remove_non_digits arabic_indic footnote))
     + Cleaning.clean_population arabic_indic int64_column footnote)%Z.
Proof.
  intros figure footnote.
  assert (Cleaning.has_foreign_digit arabic_indic (figure ++ footnote) = false)
    as Hforeign by reflexivity.
  assert (Cleaning.digits_number
            (Cleaning.remove_non_digits arabic_indic (figure ++ footnote))
          < 2 ^ 53)%Z as Hfits
    by (vm_compute; reflexivity).
  split; [exact Hforeign|]. split; [exact Hfits|].
  exact (population_appends_later_digits arabic_indic int64_column
           figure footnote Hforeign Hfits).
Defined.

(** The digits 1 and 2 followed by the Arabic-Indic digit three. *)
Lemma foreign_digit_voids_the_population_witness :
  let cell := Cleaning.codes "12" ++ [1635%N] in
  Cleaning.has_foreign_digit arabic_indic cell = true /\
  Cleaning.clean_population arabic_indic int64_column cell = 0%Z.
Proof.
  intros cell.
  assert (Cleaning.has_foreign_digit arabic_indic cell = true) as Hforeign
    by reflexivity.
  split; [exact Hforeign|].
  exact (foreign_digit_voids_the_population arabic_indic int64_column
           cell Hforeign).
Defined.

(** The three sample rows: Yalta carries the marker. *)
Lemma city_lists_split_the_table_witness :
  Script.run_script arabic_indic int64_column atlas recursion_error 1 raw_table blank_disk
  = (atlas_disk, Geocode.Completed, atlas_trace, Some atlas_report) /\
  exists recognized unrecognized,
    Script.russian_cities atlas_disk = Some recognized /\
    Script.unrecognized_cities atlas_disk = Some unrecognized /\
    unrecognized ++ recognized
      ≡ₚ Cleaning.clean arabic_indic int64_column <$> raw_table /\
    recognized `sublist_of` Cleaning.clean arabic_indic int64_column <$> raw_table /\
    unrecognized `sublist_of` Cleaning.clean arabic_indic int64_column <$> raw_table /\
    (forall r, r ∈ recognized ->
       Cleaning.contains Cleaning.marker (Geocode.city r) = false) /\
    (forall r, r ∈ unrecognized ->
       Cleaning.contains Cleaning.marker (Geocode.city r) = true).
Proof.
  split; [exact sample_script_run|].
  exact (city_lists_split_the_table arabic_indic int64_column atlas recursion_error 1
           raw_table blank_disk atlas_disk
           Geocode.Completed atlas_trace (Some atlas_report) sample_script_run).
Defined.

Lemma yalta_alone_run :
  Script.run_script arabic_indic int64_column atlas recursion_error 1 [raw_yalta] blank_disk
  = ({| Script.russian_cities := Some [];
        Script.unrecognized_cities := Some [yalta_city];
        Script.geocoding := no_files |},
     Geocode.Uncaught (ValueError "Columns must be same length as key"),
     [Geocode.Geocode "nan, nan, Russia"], None).
Proof. vm_compute. reflexivity. Qed.

(** Two calls, for Moscow and for Salekhard, none for Yalta; and with
    Yalta alone in the table, the one call for the row of missing
    values. *)
Lemma unrecognized_cities_are_not_geocoded_witness :
  let clean := Cleaning.clean arabic_indic int64_column in
  (Script.run_script arabic_indic int64_column atlas recursion_error 1 raw_table blank_disk
   = (atlas_disk, Geocode.Completed, atlas_trace, Some atlas_report) /\
   (forall q, q ∈ Geocode.geocodes atlas_trace ->
      (exists row,
         row ∈ clean <$> raw_table /\
         Cleaning.contains Cleaning.marker (Geocode.city row) = false /\
         q = Geocode.geocode_query (Geocode.city row) (Geocode.region row)) \/
      (Cleaning.df_recognized (clean <$> raw_table) = [] /\
       q = "nan, nan, Russia")) /\
   exists rows,
     Geocode.output_file (Script.geocoding atlas_disk) = Some rows /\
     Geocode.source <$> rows = Cleaning.df_recognized (clean <$> raw_table) /\
     Some atlas_report = Some (Script.final_report rows)) /\
  (Script.run_script arabic_indic int64_column atlas recursion_error 1 [raw_yalta] blank_disk
   = ({| Script.russian_cities := Some [];
         Script.unrecognized_cities := Some [yalta_city];
         Script.geocoding := no_files |},
      Geocode.Uncaught (ValueError "Columns must be same length as key"),
      [Geocode.Geocode "nan, nan, Russia"], None) /\
   Cleaning.df_recognized (clean <$> [raw_yalta]) = [] /\
   no_files = Script.geocoding blank_disk).
Proof.
  intros clean. split.
  - split; [exact sample_script_run|].
    pose proof (unrecognized_cities_are_not_geocoded arabic_indic int64_column
                  atlas recursion_error 1 raw_table blank_disk
                  atlas_disk Geocode.Completed atlas_trace (Some atlas_report)
                  sample_script_run) as (Hcalls & _ & Hrows).
    split; [exact Hcalls|exact Hrows].
  - split; [exact yalta_alone_run|].
    pose proof (unrecognized_cities_are_not_geocoded arabic_indic int64_column
                  atlas recursion_error 1 [raw_yalta] blank_disk _ _ _ _ yalta_alone_run)
      as (_ & _ & Hsame & _).
    split; [vm_compute; reflexivity|exact Hsame].
Defined.

(** The geocoder answers for Kirovsk and fails on Apatity; and a geocoder
    that is down, with a stack that holds three activations. *)
Lemma how_a_geocoding_run_is_left_witness :
  let calls :=
    [ Geocode.Geocode "Kirovsk, Murmansk Oblast, Russia";
      Geocode.Geocode "Apatity, Murmansk Oblast, Russia" ] in
  let retried :=
    Geocode.retries "Kirovsk, Murmansk Oblast, Russia" 3
    ++ [Geocode.Geocode "Kirovsk, Murmansk Oblast, Russia"] in
  (Geocode.fetch_and_geocode_russian_cities failing_geocoder recursion_error 1
     [kirovsk; apatity] no_files
   = (no_files,
      Geocode.Uncaught (GeocoderServiceError "service unavailable"),
      calls) /\
   exists n row,
     row ∈ [kirovsk; apatity] /\
     failing_geocoder n
       (Geocode.geocode_query (Geocode.city row) (Geocode.region row))
     = Geocode.GeocodeRaised (GeocoderServiceError "service unavailable")) /\
  (Geocode.fetch_and_geocode_russian_cities dead_geocoder recursion_error 3
     [kirovsk; apatity] no_files
   = (no_files,
      Geocode.Uncaught recursion_error,
      retried) /\
   exists first row,
     row ∈ [kirovsk; apatity] /\
     forall i, i < 3 ->
       dead_geocoder (first + i)
         (Geocode.geocode_query (Geocode.city row) (Geocode.region row))
       = Geocode.GeocoderTimedOut).
Proof.
  intros calls retried.
  assert (Geocode.fetch_and_geocode_russian_cities failing_geocoder recursion_error 1
            [kirovsk; apatity] no_files
          = (no_files,
             Geocode.Uncaught (GeocoderServiceError "service unavailable"),
             calls)) as Hfailing by (vm_compute; reflexivity).
  assert (Geocode.fetch_and_geocode_russian_cities dead_geocoder recursion_error 3
            [kirovsk; apatity] no_files
          = (no_files,
             Geocode.Uncaught recursion_error,
             retried)) as Hdead by (vm_compute; reflexivity).
  split.
  - split; [exact Hfailing|].
    destruct (how_a_geocoding_run_is_left failing_geocoder recursion_error 1
                [kirovsk; apatity] no_files no_files _ calls Hfailing)
      as (_ & [[Hnil _]|[Hraised|(first & row & _ & Hclass & _)]]);
      [discriminate Hnil|exact Hraised|discriminate Hclass].
  - split; [exact Hdead|].
    destruct (how_a_geocoding_run_is_left dead_geocoder recursion_error 3
                [kirovsk; apatity] no_files no_files _ retried Hdead)
      as (_ & [[Hnil _]|[(n & row & _ & Hraised)|(first & row & Hin & _ & Hto)]]);
      [discriminate Hnil|discriminate Hraised|].
    exists first, row. split; [exact Hin|exact Hto].
Defined.

End MoreRuns.
